(** * Inter-AI: the interview session orchestrator

  A shallow embedding of [backend/interviews/ai_service.py],
  [backend/interviews/gemini_service.py] and
  [backend/interviews/ai_views.py], and the properties of the
  conversation orchestration contract proved about it.

  Python objects are records, methods are computations in a small
  state-and-exception monad, the engine objects live in a heap that the
  module-level dictionary [active_ai_sessions] points into, and the
  outside world (the two chat completion services and the database) is
  an arbitrary oracle. *)

From Stdlib Require Import ZArith Lia.
From stdpp Require Import base option list strings gmap pretty.

Set Default Proof Using "Type".
Local Open Scope string_scope.

(** ** Python values *)

(** The line feed character written [\n] in the source. *)
Definition nl : string := String (Ascii.ascii_of_nat 10) EmptyString.

(** Truth value of a Python string: only the empty string is falsy. *)
Definition str_truthy (s : string) : bool :=
match s with
| EmptyString => false
| String _ _ => true
end.

(** Truth value of an optional string ([None] is falsy too). *)
Definition truthy (o : option string) : bool :=
match o with
| None => false
| Some s => str_truthy s
end.

(** Truth value of a list or of a dict: empty containers are falsy. *)
Definition nonempty {A : Type} (l : list A) : bool :=
match l with
| [] => false
| _ :: _ => true
end.

(** A dict of strings, in insertion order.  [None] stands for an omitted
  [context] argument. *)
Definition Dict : Type := list (string * string).

(** One element of [conversation_history]: [{"role": ..., "content": ...}]. *)
Record Message : Type := mkMessage { role : string; content : string }.

Global Instance Message_eq_dec : EqDecision Message.
Proof. solve_decision. Defined.

(** ** The prompt builder

  [AIInterviewer._build_system_prompt] and
  [GeminiAIInterviewer._build_system_prompt] have the same body. *)
Module PromptBuilder.

Definition preamble : string :=
"You are a professional and friendly AI interviewer. Your role is to conduct a structured interview " +:+ nl +:+
"with a student/candidate. You should:

1. Be professional yet warm and encouraging
2. Ask the provided questions one at a time
3. Listen carefully to the candidate's responses
4. Ask relevant follow-up questions when appropriate
5. Provide smooth transitions between topics
6. Keep track of which questions have been asked
7. Manage the interview time effectively
8. End the interview gracefully when all questions are covered

IMPORTANT RULES:
- Only ask ONE question at a time
- Wait for the candidate's response before moving to the next question
- Be encouraging and create a comfortable environment
- If the candidate seems confused, rephrase the question
- Keep your responses concise and professional
".

(** [for key, value in context.items(): prompt += f"- {key}: {value}\n"] *)
Definition add_context_items (prompt : string) (context : Dict) : string :=
  fold_left (fun prompt kv => prompt +:+ "- " +:+ kv.1 +:+ ": " +:+ kv.2 +:+ nl)
            context prompt.

(** [for i, question in enumerate(questions, 1):
       prompt += f"{i}. {question}\n"]
    The loop state is the prompt so far and the running counter. *)
Definition add_questions_from (start : nat) (prompt : string)
    (questions : list string) : string * nat :=
  fold_left (fun '(prompt, i) question =>
               (prompt +:+ pretty i +:+ ". " +:+ question +:+ nl, S i))
            questions (prompt, start).

Definition _build_system_prompt (questions : list string)
    (context : option Dict) : string :=
  let prompt := preamble in
  let prompt :=
    match context with
    | Some items =>
        if nonempty items then
          add_context_items (prompt +:+ nl +:+ nl +:+ "INTERVIEW CONTEXT:" +:+ nl) items
        else prompt
    | None => prompt
    end in
  let prompt := prompt +:+ nl +:+ nl +:+ "QUESTIONS TO ASK (in order):" +:+ nl in
  (add_questions_from 1 prompt questions).1.

(** *** The layout the specification describes *)

Definition context_line (kv : string * string) : string :=
  "- " +:+ kv.1 +:+ ": " +:+ kv.2 +:+ nl.

Definition question_line (i : nat) (question : string) : string :=
  pretty (S i) +:+ ". " +:+ question +:+ nl.

Fixpoint concat_str (l : list string) : string :=
  match l with
  | [] => EmptyString
  | s :: l => s +:+ concat_str l
  end.

Definition context_block (context : option Dict) : string :=
  match context with
  | None | Some [] => EmptyString
  | Some items =>
      nl +:+ nl +:+ "INTERVIEW CONTEXT:" +:+ nl +:+ concat_str (map context_line items)
  end.

Definition question_block (questions : list string) : string :=
  nl +:+ nl +:+ "QUESTIONS TO ASK (in order):" +:+ nl
     +:+ concat_str (imap question_line questions).

Definition prompt_layout (questions : list string) (context : option Dict) : string :=
  preamble +:+ context_block context +:+ question_block questions.

End PromptBuilder.

(** ** Exceptions and state

    A method call either returns a value or raises; what it did to the
    state before raising stays done.  An exception is represented by its
    message, the [str(e)] that the handlers of the source format. *)

Inductive Result (A : Type) : Type :=
| Ok (a : A)
| Raise (msg : string).
Arguments Ok {A} a.
Arguments Raise {A} msg.

Definition M (St A : Type) : Type := St → Result A * St.

Definition ret {St A : Type} (a : A) : M St A := λ s, (Ok a, s).

Definition raise {St A : Type} (msg : string) : M St A := λ s, (Raise msg, s).

Definition bind {St A B : Type} (m : M St A) (k : A → M St B) : M St B :=
  λ s, match m s with
       | (Ok a, s') => k a s'
       | (Raise msg, s') => (Raise msg, s')
       end.

(** [try: m  except Exception as e: handler(str(e))] *)
Definition try_except {St A : Type} (m : M St A) (handler : string → M St A) : M St A :=
  λ s, match m s with
       | (Ok a, s') => (Ok a, s')
       | (Raise msg, s') => handler msg s'
       end.

Definition get {St : Type} : M St St := λ s, (Ok s, s).

Definition modify {St : Type} (f : St → St) : M St unit := λ s, (Ok tt, f s).

(** A read of something outside the state: it gives its value or raises,
    and leaves the state as it is. *)
Definition fetch {St A : Type} (read : Result A) : M St A := λ s, (read, s).

(** Runs a computation on a part of the state. *)
Definition zoom {S T A : Type} (view : T → S) (update : S → T → T) (m : M S A) : M T A :=
  λ t, match m (view t) with (r, s) => (r, update s t) end.

Declare Scope py_scope.
Delimit Scope py_scope with py.
Notation "x <- m ;; k" := (bind m (λ x, k))
  (at level 100, m at next level, right associativity) : py_scope.
Notation "m ;;; k" := (bind m (λ _, k))
  (at level 100, right associativity) : py_scope.
Local Open Scope py_scope.

(** ** The database rows *)

(** A row of [Question]: its primary key, its text, and the two columns
    that the orderings of the queries look at, [created_at] as the number
    of its instant. *)
Record Question : Type := mkQuestion {
  question_pk : nat;
  question_text : string;
  order : Z;
  created_at : Z
}.

(** An [InterviewSession] as the view has it.  [str(session.session_id)],
    [session.title] and [session.duration_minutes] are columns of the row
    that [post] has loaded.  The three other things that the view uses are
    read from the database when the view asks for them, and each read
    gives a value or raises:
    - [questions_by_order] is [session.questions.all().order_by('order')],
      of which line 67 takes the texts: the rows sorted by [order], rows
      of equal [order] in the order the database chooses;
    - [student] is [session.student.name], line 78;
    - [questions_first] is [session.questions.first()], line 130: the
      first row in the ordering of the model's [Meta], by [order] and
      then by [created_at], or [None] when there is no row.
    Nothing ties the first row of [questions_by_order] to
    [questions_first]: with two questions of the same [order] they can
    differ. *)
Record Session : Type := mkSession {
  session_id : string;
  title : string;
  duration_minutes : Z;
  questions_by_order : Result (list Question);
  student : Result string;
  questions_first : Result (option Question)
}.

#[global] Instance Question_eq_dec : EqDecision Question.
Proof. solve_decision. Defined.

(** The two orderings.  [order_by('order')] compares the [order] column
    only; the [ordering] of [Meta], which [first()] follows, compares
    [order] and then [created_at]. *)
Definition by_order (a b : Question) : bool := (order a <=? order b)%Z.

Definition by_meta (a b : Question) : bool :=
  (order a <? order b)%Z || ((order a =? order b)%Z && (created_at a <=? created_at b)%Z).

(** [rows] can be what line 67 reads: they are sorted by [order]. *)
Fixpoint sorted_by_order (rows : list Question) : bool :=
  match rows with
  | [] => true
  | a :: rest =>
      match rest with
      | [] => true
      | b :: _ => by_order a b && sorted_by_order rest
      end
  end.

(** [question] can be what [first()] gives on a table that holds [rows]:
    nothing when there is no row, else a row that no other row comes
    before in the ordering of [Meta]. *)
Definition first_of (rows : list Question) (question : option Question) : bool :=
  match question with
  | None => bool_decide (rows = [])
  | Some a => bool_decide (a ∈ rows) && forallb (by_meta a) rows
  end.

(** The reads of a session can come from one state of the table of the
    questions.  The view does not need it: the table may change between
    line 67 and line 130. *)
Definition one_table (session : Session) : bool :=
  match questions_by_order session, questions_first session with
  | Ok rows, Ok question => sorted_by_order rows && first_of rows question
  | _, _ => true
  end.

(** A row of [Conversation]; [speaker] is ['ai'] or ['student']. *)
Record Conversation : Type := mkConversation {
  conv_session : string;
  conv_question : option nat;
  speaker : string;
  message : string
}.

(** ** The world outside the process

    Every call that leaves the Python code is a request, answered by an
    oracle that knows how many requests came before: building the client
    of either SDK, one chat completion, one message sent in a Gemini chat,
    one [INSERT] into the conversation table. *)

Inductive Request : Type :=
| GenaiConfigure (api_key : string)
| OpenAIClient (api_key : string)
| ChatCompletionsCreate (messages : list Message)
| ChatSendMessage (full_message : string)
| ConversationInsert (row : Conversation).

Inductive Reply : Type :=
| Returns (text : string)
| Fails (error : string).

Record Env : Type := mkEnv {
  environ : gmap string string;
  GEMINI_AVAILABLE : bool;
  OPENAI_AVAILABLE : bool;
  outside : nat → Request → Reply;
  calls : nat
}.

Definition os_getenv (env : Env) (name : string) : option string := environ env !! name.

Definition count_call (env : Env) : Env :=
  mkEnv (environ env) (GEMINI_AVAILABLE env) (OPENAI_AVAILABLE env) (outside env) (S (calls env)).

Definition external (r : Request) : M Env string :=
  λ env, match outside env (calls env) r with
         | Returns text => (Ok text, count_call env)
         | Fails error => (Raise error, count_call env)
         end.

(** [a or b] on optional strings. *)
Definition py_or (a b : option string) : option string := if truthy a then a else b.

(** A method of an engine that talks to a provider runs on the object and
    on the world outside. *)
Definition on_self {Obj A : Type} (m : M Obj A) : M (Obj * Env) A :=
  zoom fst (λ o s, (o, s.2)) m.

Definition on_env {Obj A : Type} (m : M Env A) : M (Obj * Env) A :=
  zoom snd (λ e s, (s.1, e)) m.

(** What [get_conversation_summary] returns, the same dict in all classes. *)
Record Summary : Type := mkSummary {
  total_messages : nat;
  student_messages : nat;
  ai_messages : nat;
  conversation : list Message
}.

Definition with_role (r : string) (history : list Message) : list Message :=
  filter (λ msg, role msg = r) history.

Definition summary_of (history : list Message) : Summary :=
  mkSummary (length history)
            (length (with_role "user" history))
            (length (with_role "assistant" history))
            history.

(** ** The scripted engine: [MockAIInterviewer]

    [ai_service.py] and [gemini_service.py] each define this class, with
    the same text; the view imports the one of [gemini_service.py]. *)
Module Mock.

Record t : Type := mk {
  questions : list string;
  current_question_index : nat;
  conversation_history : list Message
}.

Definition __init__ : t := mk [] 0 [].

Definition set_questions (qs : list string) (self : t) : t :=
  mk qs (current_question_index self) (conversation_history self).

Definition set_current_question_index (i : nat) (self : t) : t :=
  mk (questions self) i (conversation_history self).

Definition history_append (r c : string) (self : t) : t :=
  mk (questions self) (current_question_index self)
     (conversation_history self ++ [mkMessage r c]).

Definition opening_message : string :=
  "Hello! Welcome to this interview. I'm excited to learn more about you. Let's begin!".

Definition concluding_sentence : string :=
  "Thank you for your responses! That concludes our interview.".

Definition closing_message : string :=
  "Thank you for taking the time to interview with us today. We appreciate your interest and will be in touch soon. Have a great day!".

Definition initialize_interview (qs : list string) (context : option Dict) : M t string :=
  modify (set_questions qs) ;;;
  modify (set_current_question_index 0) ;;;
  modify (history_append "assistant" opening_message) ;;;
  ret opening_message.

Definition get_ai_response (student_response : option string) : M t string :=
  match student_response with
  | Some s => if str_truthy s then modify (history_append "user" s) else ret tt
  | None => ret tt
  end ;;;
  self <- get ;;
  if decide (current_question_index self < length (questions self)) then
    match questions self !! current_question_index self with
    | Some question =>
        modify (set_current_question_index (current_question_index self + 1)) ;;;
        modify (history_append "assistant" question) ;;;
        ret question
    | None => raise "list index out of range"
    end
  else ret concluding_sentence.

Definition end_interview : M t string :=
  modify (history_append "assistant" closing_message) ;;;
  ret closing_message.

Definition get_conversation_summary (self : t) : Summary :=
  summary_of (conversation_history self).

End Mock.

(** ** Provider A: [AIInterviewer], on the OpenAI chat completion API *)
Module OpenAI.

(** [self.client] is the handle obtained from the SDK; the object keeps
    the key it was built with. *)
Record t : Type := mk {
  api_key : string;
  conversation_history : list Message
}.

Definition set_history (h : list Message) (self : t) : t := mk (api_key self) h.

Definition history_append (r c : string) (self : t) : t :=
  mk (api_key self) (conversation_history self ++ [mkMessage r c]).

Definition __init__ (key : option string) : M Env t :=
  env <- get ;;
  if negb (OPENAI_AVAILABLE env) then
    raise "OpenAI library is required. Install with: pip install openai"
  else
    match py_or key (os_getenv env "OPENAI_API_KEY") with
    | Some k =>
        if str_truthy k then
          external (OpenAIClient k) ;;;
          ret (mk k [])
        else raise "OpenAI API key is required. Set OPENAI_API_KEY environment variable or pass it to constructor."
    | None => raise "OpenAI API key is required. Set OPENAI_API_KEY environment variable or pass it to constructor."
    end.

Definition _build_system_prompt : list string → option Dict → string :=
  PromptBuilder._build_system_prompt.

Definition get_ai_response (student_response : option string) : M (t * Env) string :=
  match student_response with
  | Some s => if str_truthy s then on_self (modify (history_append "user" s)) else ret tt
  | None => ret tt
  end ;;;
  try_except
    (self <- on_self get ;;
     ai_message <- on_env (external (ChatCompletionsCreate (conversation_history self))) ;;
     on_self (modify (history_append "assistant" ai_message)) ;;;
     ret ai_message)
    (λ e, raise ("AI service error: " +:+ e)).

Definition initialize_interview (qs : list string) (context : option Dict) : M (t * Env) string :=
  let system_prompt := _build_system_prompt qs context in
  on_self (modify (set_history [mkMessage "system" system_prompt])) ;;;
  opening_message <- get_ai_response (Some "Start the interview with a warm greeting.") ;;
  ret opening_message.

Definition closing_prompt : string :=
  "The interview is now complete. Thank the candidate and provide a professional closing statement.".

Definition end_interview : M (t * Env) string :=
  on_self (modify (history_append "user" closing_prompt)) ;;;
  closing_message <- get_ai_response None ;;
  ret closing_message.

Definition get_conversation_summary (self : t) : Summary :=
  summary_of (conversation_history self).

End OpenAI.

(** ** Provider B: [GeminiAIInterviewer], on the Gemini chat API *)
Module Gemini.

(** The object [self.model.start_chat(history=[])] returns. *)
Inductive ChatSession : Type := start_chat.

Record t : Type := mk {
  api_key : string;
  chat : option ChatSession;
  conversation_history : list Message;
  system_prompt : string
}.

Definition set_system_prompt (p : string) (self : t) : t :=
  mk (api_key self) (chat self) (conversation_history self) p.

Definition set_chat (c : option ChatSession) (self : t) : t :=
  mk (api_key self) c (conversation_history self) (system_prompt self).

Definition set_history (h : list Message) (self : t) : t :=
  mk (api_key self) (chat self) h (system_prompt self).

Definition history_append (r c : string) (self : t) : t :=
  set_history (conversation_history self ++ [mkMessage r c]) self.

Definition __init__ (key : option string) : M Env t :=
  env <- get ;;
  if negb (GEMINI_AVAILABLE env) then
    raise "Google Gemini library is required. Install with: pip install google-generativeai"
  else
    match py_or key (os_getenv env "GEMINI_API_KEY") with
    | Some k =>
        if str_truthy k then
          external (GenaiConfigure k) ;;;
          ret (mk k None [] EmptyString)
        else raise "Gemini API key is required. Set GEMINI_API_KEY environment variable or pass it to constructor."
    | None => raise "Gemini API key is required. Set GEMINI_API_KEY environment variable or pass it to constructor."
    end.

Definition _build_system_prompt : list string → option Dict → string :=
  PromptBuilder._build_system_prompt.

Definition _send_message (message : string) : M (t * Env) string :=
  try_except
    (self <- on_self get ;;
     let full_message :=
       if nonempty (conversation_history self) then message
       else system_prompt self +:+ nl +:+ nl +:+ message in
     match chat self with
     | None => raise "'NoneType' object has no attribute 'send_message'"
     | Some _ =>
         ai_message <- on_env (external (ChatSendMessage full_message)) ;;
         on_self (modify (history_append "user" message)) ;;;
         on_self (modify (history_append "assistant" ai_message)) ;;;
         ret ai_message
     end)
    (λ e, raise ("AI service error: " +:+ e)).

Definition initialize_interview (qs : list string) (context : option Dict) : M (t * Env) string :=
  on_self (modify (set_system_prompt (_build_system_prompt qs context))) ;;;
  on_self (modify (set_chat (Some start_chat))) ;;;
  on_self (modify (set_history [])) ;;;
  opening_message <- _send_message "Start the interview with a warm greeting." ;;
  ret opening_message.

Definition get_ai_response (student_response : option string) : M (t * Env) string :=
  self <- on_self get ;;
  match chat self with
  | None => raise "Interview not initialized. Call initialize_interview first."
  | Some _ =>
      match student_response with
      | Some s =>
          if str_truthy s then _send_message s
          else _send_message "Please ask the next question."
      | None => _send_message "Please ask the next question."
      end
  end.

Definition closing_prompt : string :=
  "The interview is now complete. Thank the candidate and provide a professional closing statement.".

Definition end_interview : M (t * Env) string :=
  self <- on_self get ;;
  match chat self with
  | None => ret "Thank you for your time."
  | Some _ =>
      closing_message <- _send_message closing_prompt ;;
      ret closing_message
  end.

Definition get_conversation_summary (self : t) : Summary :=
  summary_of (conversation_history self).

End Gemini.

(** ** The engine objects and the registry *)

(** The three classes share their four method names and nothing else;
    a call [ai_interviewer.method(...)] selects on the class of the
    object. *)
Inductive Engine : Type :=
| MockE (m : Mock.t)
| OpenAIE (o : OpenAI.t)
| GeminiE (g : Gemini.t).

Definition dispatch {A : Type} (mock : M Mock.t A) (openai : M (OpenAI.t * Env) A)
    (gemini : M (Gemini.t * Env) A) : M (Engine * Env) A :=
  λ s, match s.1 with
       | MockE m => match mock m with (r, m') => (r, (MockE m', s.2)) end
       | OpenAIE o => match openai (o, s.2) with (r, (o', env')) => (r, (OpenAIE o', env')) end
       | GeminiE g => match gemini (g, s.2) with (r, (g', env')) => (r, (GeminiE g', env')) end
       end.

Definition initialize_interview (qs : list string) (context : option Dict) : M (Engine * Env) string :=
  dispatch (Mock.initialize_interview qs context)
           (OpenAI.initialize_interview qs context)
           (Gemini.initialize_interview qs context).

Definition get_ai_response (student_response : option string) : M (Engine * Env) string :=
  dispatch (Mock.get_ai_response student_response)
           (OpenAI.get_ai_response student_response)
           (Gemini.get_ai_response student_response).

Definition end_interview : M (Engine * Env) string :=
  dispatch Mock.end_interview OpenAI.end_interview Gemini.end_interview.

Definition conversation_history (e : Engine) : list Message :=
  match e with
  | MockE m => Mock.conversation_history m
  | OpenAIE o => OpenAI.conversation_history o
  | GeminiE g => Gemini.conversation_history g
  end.

Definition get_conversation_summary (e : Engine) : Summary :=
  match e with
  | MockE m => Mock.get_conversation_summary m
  | OpenAIE o => OpenAI.get_conversation_summary o
  | GeminiE g => Gemini.get_conversation_summary g
  end.

(** The state of the process: the engine objects by address, the
    module-level dict [active_ai_sessions] from [str(session.session_id)]
    to the address of an engine, the two tables the view touches, and the
    world outside. *)
Record World : Type := mkWorld {
  heap : gmap nat Engine;
  active_ai_sessions : gmap string nat;
  session_table : gmap string Session;
  conversations : list Conversation;
  env : Env
}.

Definition set_heap (h : gmap nat Engine) (w : World) : World :=
  mkWorld h (active_ai_sessions w) (session_table w) (conversations w) (env w).

Definition set_active_ai_sessions (r : gmap string nat) (w : World) : World :=
  mkWorld (heap w) r (session_table w) (conversations w) (env w).

Definition set_conversations (c : list Conversation) (w : World) : World :=
  mkWorld (heap w) (active_ai_sessions w) (session_table w) c (env w).

Definition set_env (e : Env) (w : World) : World :=
  mkWorld (heap w) (active_ai_sessions w) (session_table w) (conversations w) e.

(** The address a new object gets: one no object lives at. *)
Definition new_address (w : World) : nat := fresh (dom (heap w)).

(** [Class(...)]: runs the constructor and, if it returns, allocates the
    object. *)
Definition new {Obj : Type} (inject : Obj → Engine) (init : M Env Obj) : M World nat :=
  obj <- zoom env set_env init ;;
  w <- get ;;
  let a := new_address w in
  modify (set_heap (<[a := inject obj]> (heap w))) ;;;
  ret a.

(** [obj.method(...)] on the object at address [a].  A reference to no
    object does not exist in Python; the model raises there. *)
Definition call {A : Type} (a : nat) (method : M (Engine * Env) A) : M World A :=
  λ w, match heap w !! a with
       | Some e =>
           match method (e, env w) with
           | (r, (e', env')) => (r, set_env env' (set_heap (<[a := e']> (heap w)) w))
           end
       | None => (Raise "dangling reference", w)
       end.

(** [Conversation.objects.create(...)]: the row is in the table once the
    database has accepted it. *)
Definition Conversation_objects_create (row : Conversation) : M World unit :=
  zoom env set_env (external (ConversationInsert row)) ;;;
  modify (λ w, set_conversations (conversations w ++ [row]) w).

(** ** The view: [AIInterviewView] *)

(** [request.data], the three keys the view reads. *)
Record HttpRequest : Type := mkRequest {
  action : option string;
  req_session_id : option string;
  student_response : option string
}.

(** The dicts passed to [Response]. *)
Inductive Body : Type :=
| ErrorBody (error : string)
| InitializeBody (opening_message first_question : string)
| RespondBody (ai_response : string)
| EndBody (closing_message : string) (summary : Summary).

Record Response : Type := mkResponse { data : Body; status : nat }.

Definition HTTP_200_OK : nat := 200.
Definition HTTP_400_BAD_REQUEST : nat := 400.
Definition HTTP_404_NOT_FOUND : nat := 404.
Definition HTTP_500_INTERNAL_SERVER_ERROR : nat := 500.

Definition session_key (session : Session) : string := session_id session.

(** Lines 82 to 107 of [ai_views.py]: Gemini if its key is set and its
    constructor returns, else OpenAI likewise, else the mock. *)
Definition select_interviewer : M World nat :=
  w <- get ;;
  ai_interviewer <-
    (if truthy (os_getenv (env w) "GEMINI_API_KEY") then
       try_except (a <- new GeminiE (Gemini.__init__ None) ;; ret (Some a))
                  (λ _, ret None)
     else ret None) ;;
  w <- get ;;
  ai_interviewer <-
    (match ai_interviewer with
     | None =>
         if truthy (os_getenv (env w) "OPENAI_API_KEY") then
           try_except (a <- new OpenAIE (OpenAI.__init__ None) ;; ret (Some a))
                      (λ _, ret None)
         else ret None
     | Some a => ret (Some a)
     end) ;;
  match ai_interviewer with
  | None => new MockE (ret Mock.__init__)
  | Some a => ret a
  end.

(** Lines 63 to 144.  The three reads of the database are inside the
    [try], where the code has them: the questions at line 67, the student
    at line 78, once there are questions, and [session.questions.first()]
    at line 130, after the first question has been asked of the engine
    and before its row is inserted.  A read that raises is answered with
    500 like any other exception. *)
Definition _initialize_interview (request : HttpRequest) (session : Session) : M World Response :=
  try_except
    (rows <- fetch (questions_by_order session) ;;
     let questions := map question_text rows in
     if negb (nonempty questions) then
       ret (mkResponse (ErrorBody "No questions found for this session") HTTP_400_BAD_REQUEST)
     else
       student_name <- fetch (student session) ;;
       let context :=
         [("title", title session);
          ("student_name", student_name);
          ("duration", pretty (duration_minutes session) +:+ " minutes")] in
       ai_interviewer <- select_interviewer ;;
       opening_message <- call ai_interviewer (initialize_interview questions (Some context)) ;;
       modify (λ w, set_active_ai_sessions
                      (<[session_key session := ai_interviewer]> (active_ai_sessions w)) w) ;;;
       Conversation_objects_create
         (mkConversation (session_id session) None "ai" opening_message) ;;;
       first_question <-
         call ai_interviewer (get_ai_response (Some "Please ask the first question.")) ;;
       question <- fetch (questions_first session) ;;
       Conversation_objects_create
         (mkConversation (session_id session) (question_pk <$> question)
                         "ai" first_question) ;;;
       ret (mkResponse (InitializeBody opening_message first_question) HTTP_200_OK))
    (λ e, ret (mkResponse (ErrorBody ("Failed to initialize interview: " +:+ e))
                          HTTP_500_INTERNAL_SERVER_ERROR)).

Definition _get_ai_response (request : HttpRequest) (session : Session) : M World Response :=
  if negb (truthy (student_response request)) then
    ret (mkResponse (ErrorBody "student_response is required") HTTP_400_BAD_REQUEST)
  else
    w <- get ;;
    match active_ai_sessions w !! session_key session with
    | None =>
        ret (mkResponse (ErrorBody "AI session not found. Please initialize the interview first.")
                        HTTP_400_BAD_REQUEST)
    | Some ai_interviewer =>
        try_except
          (Conversation_objects_create
             (mkConversation (session_id session) None "student"
                             (default EmptyString (student_response request))) ;;;
           ai_response <- call ai_interviewer (get_ai_response (student_response request)) ;;
           Conversation_objects_create
             (mkConversation (session_id session) None "ai" ai_response) ;;;
           ret (mkResponse (RespondBody ai_response) HTTP_200_OK))
          (λ e, ret (mkResponse (ErrorBody ("Failed to get AI response: " +:+ e))
                                HTTP_500_INTERNAL_SERVER_ERROR))
    end.

Definition _end_interview (request : HttpRequest) (session : Session) : M World Response :=
  w <- get ;;
  match active_ai_sessions w !! session_key session with
  | None => ret (mkResponse (ErrorBody "AI session not found") HTTP_400_BAD_REQUEST)
  | Some ai_interviewer =>
      try_except
        (closing_message <- call ai_interviewer end_interview ;;
         Conversation_objects_create
           (mkConversation (session_id session) None "ai" closing_message) ;;;
         summary <- call ai_interviewer (λ s, (Ok (get_conversation_summary s.1), s)) ;;
         modify (λ w, set_active_ai_sessions
                        (delete (session_key session) (active_ai_sessions w)) w) ;;;
         ret (mkResponse (EndBody closing_message summary) HTTP_200_OK))
        (λ e, ret (mkResponse (ErrorBody ("Failed to end interview: " +:+ e))
                              HTTP_500_INTERNAL_SERVER_ERROR))
  end.

(** Lines 24 to 61.  [InterviewSession.objects.get] is a lookup in the
    table of the sessions, by the text of their [session_id]; the requests
    are those whose [session_id] the UUID column can be compared with. *)
Definition post (request : HttpRequest) : M World Response :=
  if negb (truthy (req_session_id request)) then
    ret (mkResponse (ErrorBody "session_id is required") HTTP_400_BAD_REQUEST)
  else
    w <- get ;;
    match session_table w !! default EmptyString (req_session_id request) with
    | None => ret (mkResponse (ErrorBody "Session not found") HTTP_404_NOT_FOUND)
    | Some session =>
        if decide (action request = Some "initialize") then _initialize_interview request session
        else if decide (action request = Some "respond") then _get_ai_response request session
        else if decide (action request = Some "end") then _end_interview request session
        else ret (mkResponse
                    (ErrorBody "Invalid action. Must be one of: initialize, respond, end")
                    HTTP_400_BAD_REQUEST)
    end.

(** ** Runs of calls *)

(** Successive [get_ai_response] calls on a scripted engine, one per
    element of [inputs]: what each call gave, and the object afterwards. *)
Fixpoint respond_all (inputs : list (option string)) (self : Mock.t)
    : list (Result string) * Mock.t :=
  match inputs with
  | [] => ([], self)
  | input :: inputs =>
      match Mock.get_ai_response input self with
      | (r, self) =>
          match respond_all inputs self with
          | (rs, self) => (r :: rs, self)
          end
      end
  end.

(** A call of one of the three operations of an engine. *)
Inductive EngineCall : Type :=
| Initialize (questions : list string) (context : option Dict)
| Respond (student_response : option string)
| End.

Definition engine_call (c : EngineCall) : M (Engine * Env) string :=
  match c with
  | Initialize qs context => initialize_interview qs context
  | Respond r => get_ai_response r
  | End => end_interview
  end.

(** A caller that makes the calls one after the other, whether they
    return or raise. *)
Definition engine_calls (cs : list EngineCall) (s : Engine * Env) : Engine * Env :=
  fold_left (λ s c, (engine_call c s).2) cs s.

Definition is_initialize (c : EngineCall) : bool :=
  match c with
  | Initialize _ _ => true
  | _ => false
  end.

Definition is_openai (e : Engine) : bool :=
  match e with
  | OpenAIE _ => true
  | _ => false
  end.

(** The relation between the three counts of a summary. *)
Definition balanced (s : Summary) : Prop :=
  total_messages s = student_messages s + ai_messages s.

(** ** The vocabulary of the properties *)

(** A message of the dialogue proper: said by the student or by the
    interviewer. *)
Definition dialogue (msg : Message) : Prop := role msg = "user" ∨ role msg = "assistant".

(** What a run of calls keeps true of an engine: the history of a
    scripted or Gemini engine holds dialogue messages only; the history
    of an OpenAI engine does too until [initialize_interview] is called,
    and from then on it is one system message followed by dialogue
    messages. *)
Definition history_shape (initialized : bool) (e : Engine) : Prop :=
  match e with
  | OpenAIE o =>
      if initialized then
        ∃ p d, OpenAI.conversation_history o = mkMessage "system" p :: d ∧ Forall dialogue d
      else Forall dialogue (OpenAI.conversation_history o)
  | _ => Forall dialogue (conversation_history e)
  end.

(** The policy in the words of the specification: the candidates are
    tried in the order provider B, provider A, scripted; a provider is a
    candidate when its key is set and its constructor returns. *)
Definition try_gemini (env : Env) : option Gemini.t * Env :=
  if truthy (os_getenv env "GEMINI_API_KEY") then
    match Gemini.__init__ None env with
    | (Ok g, env') => (Some g, env')
    | (Raise _, env') => (None, env')
    end
  else (None, env).

Definition try_openai (env : Env) : option OpenAI.t * Env :=
  if truthy (os_getenv env "OPENAI_API_KEY") then
    match OpenAI.__init__ None env with
    | (Ok o, env') => (Some o, env')
    | (Raise _, env') => (None, env')
    end
  else (None, env).

Definition first_candidate (env : Env) : Engine * Env :=
  match try_gemini env with
  | (Some g, env1) => (GeminiE g, env1)
  | (None, env1) =>
      match try_openai env1 with
      | (Some o, env2) => (OpenAIE o, env2)
      | (None, env2) => (MockE Mock.__init__, env2)
      end
  end.

(** The database accepts every row, whenever it is asked. *)
Definition database_up (env : Env) : Prop :=
  ∀ n row, ∃ text, outside env n (ConversationInsert row) = Returns text.

(** A provider cannot be used: its key is not set, or its constructor
    raises. *)
Definition gemini_unusable (env : Env) : Prop :=
  truthy (os_getenv env "GEMINI_API_KEY") = false
  ∨ ∃ msg, (Gemini.__init__ None env).1 = Raise msg.

Definition openai_unusable (env : Env) : Prop :=
  truthy (os_getenv env "OPENAI_API_KEY") = false
  ∨ ∃ msg, (OpenAI.__init__ None env).1 = Raise msg.

(** The questions that the view goes on with: the rows that line 67
    reads, when that read succeeds and, there being rows, the read of the
    student's name succeeds too.  There are none when a read raises: the
    view then asks nothing. *)
Definition question_rows (session : Session) : list Question :=
  match questions_by_order session, student session with
  | Ok rows, Ok _ => rows
  | _, _ => []
  end.

(** The name that the view puts in the context, when it can read it. *)
Definition student_name (session : Session) : string :=
  match student session with
  | Ok name => name
  | Raise _ => EmptyString
  end.

Definition student_row (session : Session) (s : string) : Conversation :=
  mkConversation (session_id session) None "student" s.

Definition ai_row (session : Session) (s : string) : Conversation :=
  mkConversation (session_id session) None "ai" s.

Definition engine_not_found : Response :=
  mkResponse (ErrorBody "AI session not found. Please initialize the interview first.")
             HTTP_400_BAD_REQUEST.

(** What makes the end action fail after it has found the engine: the
    [end_interview] of the engine raises, or it returns and the database
    refuses the row of the closing message. *)
Inductive end_fails (session : Session) (e : Engine) (env0 : Env) : Engine → Env → string → Prop :=
| engine_end_raises (msg : string) (e' : Engine) (env' : Env) :
    end_interview (e, env0) = (Raise msg, (e', env')) →
    end_fails session e env0 e' env' msg
| closing_row_refused (closing msg : string) (e' : Engine) (env' : Env) :
    end_interview (e, env0) = (Ok closing, (e', env')) →
    outside env' (calls env') (ConversationInsert (ai_row session closing)) = Fails msg →
    end_fails session e env0 e' (count_call env') msg.

(** What the registry must satisfy: a registered session has one engine,
    which is an object of the heap, and no engine is registered for two
    sessions. *)
Definition registry_ok (w : World) : Prop :=
  (∀ k a, active_ai_sessions w !! k = Some a → a ∈ dom (heap w))
  ∧ (∀ k1 k2 a, active_ai_sessions w !! k1 = Some a →
                active_ai_sessions w !! k2 = Some a → k1 = k2).

(** What one request does to the registry and to the heap: nothing to the
    registry, or one session evicted, or one session bound to an object
    that did not exist before.  No object is ever freed. *)
Inductive registry_step (w w' : World) : Prop :=
| registry_same :
    active_ai_sessions w' = active_ai_sessions w →
    dom (heap w) ⊆ dom (heap w') →
    registry_step w w'
| registry_evict (k : string) :
    active_ai_sessions w' = delete k (active_ai_sessions w) →
    dom (heap w) ⊆ dom (heap w') →
    registry_step w w'
| registry_put (k : string) (a : nat) :
    active_ai_sessions w' = <[k := a]> (active_ai_sessions w) →
    a ∉ dom (heap w) →
    dom (heap w') = {[a]} ∪ dom (heap w) →
    registry_step w w'.

(** The worlds the process can be in: it starts with an empty registry,
    it serves requests, and between two requests anything but the heap and
    the registry may change. *)
Inductive reachable : World → Prop :=
| reachable_start (w : World) :
    active_ai_sessions w = ∅ → reachable w
| reachable_post (request : HttpRequest) (w : World) :
    reachable w → reachable (post request w).2
| reachable_elsewhere (w w' : World) :
    reachable w →
    heap w' = heap w →
    active_ai_sessions w' = active_ai_sessions w →
    reachable w'.

(** ** Worlds to run the view on *)

Definition example_session : Session :=
  mkSession "s-1" "Backend interview" 30
            (Ok [mkQuestion 1 "Q1" 1 10; mkQuestion 2 "Q2" 2 20])
            (Ok "Ann")
            (Ok (Some (mkQuestion 1 "Q1" 1 10))).

(** A session whose two questions have the same [order], the default 0.
    The query of line 67 gives them as the database has them, the
    question 1 first; [first()] looks at [created_at] too, and gives the
    question 2, which was created before. *)
Definition tied_session : Session :=
  mkSession "s-1" "Backend interview" 30
            (Ok [mkQuestion 1 "Q1" 0 20; mkQuestion 2 "Q2" 0 10])
            (Ok "Ann")
            (Ok (Some (mkQuestion 2 "Q2" 0 10))).

(** A session of which the last read fails. *)
Definition first_unreadable : Session :=
  mkSession "s-1" "Backend interview" 30
            (Ok [mkQuestion 1 "Q1" 1 10; mkQuestion 2 "Q2" 2 20])
            (Ok "Ann")
            (Raise "database is locked").

Definition provider_down : nat → Request → Reply :=
  λ _ r, match r with
         | ConversationInsert _ => Returns "inserted"
         | _ => Fails "connection refused"
         end.

Definition all_up : nat → Request → Reply := λ _ _, Returns "Welcome.".

Definition database_down : nat → Request → Reply :=
  λ _ r, match r with
         | ConversationInsert _ => Fails "database is locked"
         | _ => Returns "Goodbye."
         end.

Definition fresh_world (environ : gmap string string) (gemini_available : bool)
    (outside : nat → Request → Reply) : World :=
  mkWorld ∅ ∅ {["s-1" := example_session]} []
          (mkEnv environ gemini_available true outside 0).

Definition openai_world (outside : nat → Request → Reply) : World :=
  mkWorld {[0 := OpenAIE (OpenAI.mk "sk" [mkMessage "system" "Ask Q1."])]}
          {["s-1" := 0]} {["s-1" := example_session]} []
          (mkEnv ∅ true true outside 0).

Definition respond_request (s : string) : HttpRequest :=
  mkRequest (Some "respond") (Some "s-1") (Some s).

Definition plain_request (action : string) : HttpRequest :=
  mkRequest (Some action) (Some "s-1") None.

Definition both_keys : gmap string string :=
  {["GEMINI_API_KEY" := "g-key"; "OPENAI_API_KEY" := "o-key"]}.

Definition mock_world : World :=
  (_initialize_interview (plain_request "initialize") example_session
                         (fresh_world ∅ true all_up)).2.

(** ** The vocabulary of the further properties *)

(** The history that exchanges with a provider leave: for each exchange
    the message sent, then the answer. *)
Definition exchanges (xs : list (string * string)) : list Message :=
  xs ≫= λ x, [mkMessage "user" x.1; mkMessage "assistant" x.2].

(** The contents of the messages of one role, in order. *)
Definition said_by (r : string) (history : list Message) : list string :=
  content <$> with_role r history.

(** The inputs of [get_ai_response] that count as a student response. *)
Definition spoken (inputs : list (option string)) : list string :=
  omap (λ input, if truthy input then input else None) inputs.

(** Two worlds hold the same objects, except maybe at the address [a]. *)
Definition same_objects_but (a : nat) (w w' : World) : Prop :=
  ∀ b, b ≠ a → heap w' !! b = heap w !! b.

(** A row that the view writes: said by the interviewer or by the
    student, for the given session. *)
Definition row_of (session : Session) (row : Conversation) : Prop :=
  conv_session row = session_id session
  ∧ (speaker row = "ai" ∨ speaker row = "student").

(** The row of the first question: it points at the [Question] that
    [session.questions.first()] has given, if it has given one. *)
Definition first_question_row (session : Session) (question : option Question)
    (s : string) : Conversation :=
  mkConversation (session_id session) (question_pk <$> question) "ai" s.

(** What a handler may answer: 200; or 400, and then it has changed
    nothing at all; or 500 with the message of the exception behind the
    handler's own prefix. *)
Definition answers_with (prefix : string) (w : World) (r : Result Response * World) : Prop :=
  ∃ resp, r.1 = Ok resp
          ∧ ((status resp = HTTP_200_OK ∧ ∀ error, data resp ≠ ErrorBody error)
             ∨ (status resp = HTTP_400_BAD_REQUEST ∧ r.2 = w)
             ∨ (status resp = HTTP_500_INTERNAL_SERVER_ERROR
                ∧ ∃ msg, data resp = ErrorBody (prefix +:+ msg))).

(** What a handler may do to the conversation table: add at most two
    rows at its end, rows of the session it serves. *)
Definition appends_rows (session : Session) (w w' : World) : Prop :=
  ∃ rows, conversations w' = (conversations w ++ rows)%list
          ∧ (length rows ≤ 2)%nat
          ∧ Forall (row_of session) rows.

(** The context that [_initialize_interview] builds from the session. *)
Definition session_context (session : Session) : Dict :=
  [("title", title session);
   ("student_name", student_name session);
   ("duration", pretty (duration_minutes session) +:+ " minutes")].

(** The greeting of the engine that the selection picks in the world
    [w], for the session: what [initialize_interview] gives on it. *)
Definition greeting (session : Session) (w : World) : Result string * (Engine * Env) :=
  initialize_interview (question_text <$> question_rows session)
                       (Some (session_context session)) (first_candidate (env w)).

(** The request of a respond action that carries the response [s]. *)
Definition respond_with (session : Session) (s : string) : HttpRequest :=
  mkRequest (Some "respond") (Some (session_id session)) (Some s).

(** One respond action for each answer of the student, in order. *)
Fixpoint respond_each (answers : list string) (session : Session) (w : World) : World :=
  match answers with
  | [] => w
  | s :: answers =>
      respond_each answers session (_get_ai_response (respond_with session s) session w).2
  end.

(** The rows of an interview on the scripted engine, from the second
    question on: each answer, followed by the question whose turn it is,
    or by the concluding sentence when the questions are used up.  The
    answer number [j], counted from 0, meets the question number
    [first + j]. *)
Definition scripted_rows (session : Session) (qs : list string) (first : nat)
    (answers : list string) : list Conversation :=
  mjoin (imap (λ j s, [student_row session s;
                       ai_row session (nth (first + j) qs Mock.concluding_sentence)])
              answers).

(** The provider answers every request. *)
Definition provider_up (env : Env) : Prop :=
  ∀ n r, ∃ text, outside env n r = Returns text.

(** A whole interview as calls on an engine, the way the view makes
    them: the greeting, the directive that asks for the first question,
    one response for each answer, the end. *)
Definition interview_calls (qs : list string) (context : option Dict)
    (answers : list string) : list EngineCall :=
  Initialize qs context
  :: Respond (Some "Please ask the first question.")
  :: ((Respond ∘ Some) <$> answers) ++ [End].

(** A second session, and a world in which both sessions have been
    initialized. *)
Definition second_session : Session :=
  mkSession "s-2" "Data interview" 45
            (Ok [mkQuestion 3 "Q3" 0 30]) (Ok "Bob") (Ok (Some (mkQuestion 3 "Q3" 0 30))).

Definition two_sessions_world : World :=
  (post (mkRequest (Some "initialize") (Some "s-2") None)
        (post (plain_request "initialize")
              (mkWorld ∅ ∅ {["s-1" := example_session; "s-2" := second_session]} []
                       (mkEnv ∅ true true all_up 0))).2).2.

(** Providers whose chat completions fail, always or once. *)
Definition completion_down : nat → Request → Reply :=
  λ _ r, match r with
         | ChatCompletionsCreate _ => Fails "timeout"
         | _ => Returns "ok"
         end.

Definition completion_fails_once : nat → Request → Reply :=
  λ n r, match r with
         | ChatCompletionsCreate _ =>
             if decide (n = 1) then Fails "timeout" else Returns "Tell me more."
         | _ => Returns "ok"
         end.

(** * Properties *)

(** ** Strings *)

Lemma str_app_cons (x : Ascii.ascii) (a b : string) :
  String x a +:+ b = String x (a +:+ b).
Proof. reflexivity. Qed.

Lemma str_app_assoc (a b c : string) : (a +:+ b) +:+ c = a +:+ b +:+ c.
Proof. induction a as [|x a IH]; [done | by rewrite !str_app_cons, IH]. Qed.

Lemma str_app_nil_r (a : string) : a +:+ EmptyString = a.
Proof. induction a as [|x a IH]; [done | by rewrite str_app_cons, IH]. Qed.

(** ** The prompt builder *)

Lemma preamble_length : String.length PromptBuilder.preamble = 808.
Proof. reflexivity. Qed.

Lemma add_context_items_concat (items : Dict) (prompt : string) :
  PromptBuilder.add_context_items prompt items
  = prompt +:+ PromptBuilder.concat_str (map PromptBuilder.context_line items).
Proof.
  unfold PromptBuilder.add_context_items.
  revert prompt. induction items as [|kv items IH]; intros prompt; simpl.
  - by rewrite str_app_nil_r.
  - rewrite IH. unfold PromptBuilder.context_line.
    by rewrite !str_app_assoc.
Qed.

Lemma add_questions_from_concat (questions : list string) (start : nat) (prompt : string) :
  PromptBuilder.add_questions_from start prompt questions
  = (prompt +:+ PromptBuilder.concat_str
                  (imap (λ i q, pretty (start + i) +:+ ". " +:+ q +:+ nl) questions),
     start + length questions).
Proof.
  unfold PromptBuilder.add_questions_from.
  revert start prompt. induction questions as [|q questions IH]; intros start prompt; simpl.
  - by rewrite str_app_nil_r, Nat.add_0_r.
  - rewrite IH. rewrite Nat.add_0_r, !str_app_assoc. f_equal; [|lia].
    repeat (apply (f_equal (String.append _))). f_equal.
    apply imap_ext. intros i x _. simpl. by rewrite Nat.add_succ_r.
Qed.

(** C9.  For a list of question texts and a context, the prompt that
    either provider-backed engine builds is one string made of the
    constant preamble, then (only when the context is not empty) the
    context block with one line per key and value in insertion order, then
    the block of the questions numbered from 1 in their order.  The
    builder is a function of its two arguments: it changes neither, and
    equal arguments give equal prompts. *)
Theorem build_system_prompt_layout (questions : list string) (context : option Dict) :
  OpenAI._build_system_prompt questions context
  = PromptBuilder.prompt_layout questions context
  ∧ Gemini._build_system_prompt questions context
    = PromptBuilder.prompt_layout questions context.
Proof.
  assert (PromptBuilder._build_system_prompt questions context
          = PromptBuilder.prompt_layout questions context) as H; [|by split].
  unfold PromptBuilder._build_system_prompt, PromptBuilder.prompt_layout.
  rewrite add_questions_from_concat. simpl fst.
  unfold PromptBuilder.question_block, PromptBuilder.question_line.
  destruct context as [[|kv items]|]; simpl.
  - by rewrite !str_app_assoc.
  - rewrite add_context_items_concat. unfold PromptBuilder.context_line.
    by rewrite !str_app_assoc.
  - by rewrite !str_app_assoc.
Qed.

(** ** The scripted engine *)

Lemma mock_initialize_state (qs : list string) (context : option Dict) (self : Mock.t) :
  Mock.initialize_interview qs context self
  = (Ok Mock.opening_message,
     Mock.mk qs 0 (Mock.conversation_history self
                   ++ [mkMessage "assistant" Mock.opening_message])).
Proof. reflexivity. Qed.

(** One call with the cursor inside the list: the question under the
    cursor is returned and the cursor moves by one. *)
Lemma mock_respond_question (input : option string) (self : Mock.t) (q : string) :
  Mock.questions self !! Mock.current_question_index self = Some q →
  ∃ h, Mock.get_ai_response input self
       = (Ok q, Mock.mk (Mock.questions self) (S (Mock.current_question_index self)) h).
Proof.
  intros Hq. pose proof (lookup_lt_Some _ _ _ Hq) as Hlt.
  destruct self as [qs i h]; simpl in *.
  unfold Mock.get_ai_response, bind, get, modify, ret.
  destruct input as [s|]; [destruct (str_truthy s)|]; simpl;
    (destruct (decide _) as [_|Hge]; [|lia]); rewrite Hq; simpl;
    rewrite Nat.add_1_r; eauto.
Qed.

(** One call with the cursor at the end: the concluding sentence, and the
    cursor stays. *)
Lemma mock_respond_exhausted (input : option string) (self : Mock.t) :
  (length (Mock.questions self) ≤ Mock.current_question_index self)%nat →
  ∃ h, Mock.get_ai_response input self
       = (Ok Mock.concluding_sentence,
          Mock.mk (Mock.questions self) (Mock.current_question_index self) h).
Proof.
  intros Hge. destruct self as [qs i h]; simpl in *.
  unfold Mock.get_ai_response, bind, get, modify, ret.
  destruct input as [s|]; [destruct (str_truthy s)|]; simpl;
    (destruct (decide _) as [Hlt|_]; [lia|]); eauto.
Qed.

Lemma respond_all_from (inputs : list (option string)) (qs : list string)
    (i : nat) (h : list Message) :
  (respond_all inputs (Mock.mk qs i h)).1
  = (λ k, Ok (nth k qs Mock.concluding_sentence)) <$> seq i (length inputs).
Proof.
  revert i h. induction inputs as [|input inputs IH]; intros i h; [done|].
  simpl. destruct (qs !! i) as [q|] eqn:Hq.
  - destruct (mock_respond_question input (Mock.mk qs i h) q Hq) as [h' ->]. simpl.
    specialize (IH (S i) h'). destruct (respond_all inputs _) as [rs self']. simpl in *.
    rewrite IH. f_equal. f_equal. symmetry. by apply nth_lookup_Some.
  - apply lookup_ge_None in Hq.
    destruct (mock_respond_exhausted input (Mock.mk qs i h) Hq) as [h' ->]. simpl.
    specialize (IH i h'). destruct (respond_all inputs _) as [rs self']. simpl in *.
    rewrite nth_overflow by done. f_equal.
    rewrite IH. apply list_eq. intros k. rewrite !list_lookup_fmap.
    destruct (decide (k < length inputs)) as [Hk|Hk].
    + rewrite !lookup_seq_lt by done. simpl. by rewrite !nth_overflow by lia.
    + by rewrite !lookup_seq_ge by lia.
Qed.

(** C1.  After [initialize_interview] with the questions [qs], on a
    scripted engine in any state, the [k]-th of any number of successive
    [get_ai_response] calls (counted from 0, whatever the student said)
    returns the [k]-th question while [k] is below the number of
    questions, and the concluding sentence from then on; no call raises. *)
Theorem mock_replays_questions_then_concludes
    (qs : list string) (context : option Dict) (self : Mock.t)
    (inputs : list (option string)) :
  (respond_all inputs (Mock.initialize_interview qs context self).2).1
  = (λ k, Ok (nth k qs Mock.concluding_sentence)) <$> seq 0 (length inputs).
Proof. rewrite mock_initialize_state. apply respond_all_from. Qed.

(** ** What the engines put in their history *)

Lemma dialogue_user (c : string) : dialogue (mkMessage "user" c).
Proof. by left. Qed.

Lemma dialogue_assistant (c : string) : dialogue (mkMessage "assistant" c).
Proof. by right. Qed.

#[local] Hint Resolve dialogue_user dialogue_assistant : core.

Lemma with_role_cons (r : string) (msg : Message) (h : list Message) :
  with_role r (msg :: h)
  = if decide (role msg = r) then msg :: with_role r h else with_role r h.
Proof. unfold with_role. by rewrite filter_cons. Qed.

Lemma summary_of_dialogue (h : list Message) :
  Forall dialogue h → balanced (summary_of h).
Proof.
  unfold balanced, summary_of; cbn [total_messages student_messages ai_messages].
  induction 1 as [|msg h [Hr|Hr] _ IH]; [done|..];
    rewrite !with_role_cons, Hr; simpl; lia.
Qed.

Lemma summary_of_system (p : string) (h : list Message) :
  Forall dialogue h →
  total_messages (summary_of (mkMessage "system" p :: h))
  = student_messages (summary_of (mkMessage "system" p :: h))
    + ai_messages (summary_of (mkMessage "system" p :: h)) + 1.
Proof.
  intros Hh. pose proof (summary_of_dialogue h Hh) as Hb.
  unfold balanced, summary_of in *;
    cbn [total_messages student_messages ai_messages] in *.
  rewrite !with_role_cons. simpl. lia.
Qed.

(** The monad's operations, unfolded. *)
Ltac run :=
  unfold bind, ret, raise, get, modify, try_except, on_self, on_env, zoom, external in *;
  simpl in *.

Lemma mock_respond_history (input : option string) (self : Mock.t) :
  ∃ d, Forall dialogue d
       ∧ Mock.conversation_history (Mock.get_ai_response input self).2
         = (Mock.conversation_history self ++ d)%list.
Proof.
  destruct self as [qs i h]. unfold Mock.get_ai_response. run.
  destruct input as [s|]; [destruct (str_truthy s)|]; simpl;
    destruct (decide _); simpl; try destruct (qs !! i); simpl;
    rewrite <-?(assoc_L (++));
    first [ by exists [] ; rewrite ?app_nil_r
          | eexists; split; [|reflexivity]; by repeat constructor ].
Qed.

Lemma openai_respond_history (input : option string) (o : OpenAI.t) (env : Env) :
  ∃ d, Forall dialogue d
       ∧ OpenAI.conversation_history (OpenAI.get_ai_response input (o, env)).2.1
         = (OpenAI.conversation_history o ++ d)%list.
Proof.
  destruct o as [k h]. unfold OpenAI.get_ai_response. run.
  destruct input as [s|]; [destruct (str_truthy s)|]; simpl;
    destruct (outside env _ _); simpl;
    rewrite <-?(assoc_L (++));
    first [ by exists [] ; rewrite ?app_nil_r
          | eexists; split; [|reflexivity]; by repeat constructor ].
Qed.

Lemma openai_initialize_history (qs : list string) (context : option Dict)
    (o : OpenAI.t) (env : Env) :
  ∃ d, Forall dialogue d
       ∧ OpenAI.conversation_history (OpenAI.initialize_interview qs context (o, env)).2.1
         = mkMessage "system" (OpenAI._build_system_prompt qs context) :: d.
Proof.
  destruct o as [k h]. unfold OpenAI.initialize_interview, OpenAI.get_ai_response. run.
  destruct (outside env _ _); simpl;
    (eexists; split; [|reflexivity]; by repeat constructor).
Qed.

Lemma openai_end_history (o : OpenAI.t) (env : Env) :
  ∃ d, Forall dialogue d
       ∧ OpenAI.conversation_history (OpenAI.end_interview (o, env)).2.1
         = (OpenAI.conversation_history o ++ d)%list.
Proof.
  destruct o as [k h]. unfold OpenAI.end_interview, OpenAI.get_ai_response. run.
  destruct (outside env _ _); simpl; rewrite <-?(assoc_L (++));
    (eexists; split; [|reflexivity]; by repeat constructor).
Qed.

Lemma gemini_send_history (message : string) (g : Gemini.t) (env : Env) :
  ∃ d, Forall dialogue d
       ∧ Gemini.conversation_history (Gemini._send_message message (g, env)).2.1
         = (Gemini.conversation_history g ++ d)%list.
Proof.
  destruct g as [k c h p]. unfold Gemini._send_message. run.
  destruct c as [c|]; simpl; [|by exists []; rewrite app_nil_r].
  destruct (outside env _ _); simpl; rewrite <-?(assoc_L (++));
    first [ by exists [] ; rewrite ?app_nil_r
          | eexists; split; [|reflexivity]; by repeat constructor ].
Qed.

Lemma gemini_respond_history (input : option string) (g : Gemini.t) (env : Env) :
  ∃ d, Forall dialogue d
       ∧ Gemini.conversation_history (Gemini.get_ai_response input (g, env)).2.1
         = (Gemini.conversation_history g ++ d)%list.
Proof.
  unfold Gemini.get_ai_response.
  unfold bind at 1, on_self at 1, zoom at 1, get at 1. cbn [fst snd].
  destruct (Gemini.chat g) as [c|]; [|by exists []; rewrite app_nil_r].
  destruct input as [s|]; [destruct (str_truthy s)|]; apply gemini_send_history.
Qed.

Lemma gemini_end_history (g : Gemini.t) (env : Env) :
  ∃ d, Forall dialogue d
       ∧ Gemini.conversation_history (Gemini.end_interview (g, env)).2.1
         = (Gemini.conversation_history g ++ d)%list.
Proof.
  unfold Gemini.end_interview.
  unfold bind at 1, on_self at 1, zoom at 1, get at 1. cbn [fst snd].
  destruct (Gemini.chat g) as [c|]; [|by exists []; rewrite app_nil_r].
  destruct (gemini_send_history Gemini.closing_prompt g env) as (d & Hd & Heq).
  exists d. split; [done|]. rewrite <-Heq. unfold bind, ret.
  by destruct (Gemini._send_message _ _) as [[?|?] ?].
Qed.

Lemma gemini_initialize_history (qs : list string) (context : option Dict)
    (g : Gemini.t) (env : Env) :
  Forall dialogue
    (Gemini.conversation_history (Gemini.initialize_interview qs context (g, env)).2.1).
Proof.
  destruct g as [k c h p]. unfold Gemini.initialize_interview, Gemini._send_message. run.
  destruct (outside env _ _); simpl; by repeat constructor.
Qed.

Lemma engine_call_variant (c : EngineCall) (e : Engine) (env : Env) :
  is_openai (engine_call c (e, env)).2.1 = is_openai e.
Proof.
  destruct c, e; unfold engine_call, initialize_interview, get_ai_response,
    end_interview, dispatch; cbn [fst snd];
    by repeat (match goal with |- context [match ?x with _ => _ end] => destruct x end).
Qed.

Lemma engine_call_shape (c : EngineCall) (b : bool) (e : Engine) (env : Env) :
  history_shape b e →
  history_shape (b || is_initialize c) (engine_call c (e, env)).2.1.
Proof.
  intros Hs. destruct e as [m|o|g]; simpl in Hs.
  - (* scripted *)
    assert (∃ d, Forall dialogue d
              ∧ Mock.conversation_history
                  (match engine_call c (MockE m, env) with
                   | (_, (MockE m', _)) => m' | _ => m end)
                = (Mock.conversation_history m ++ d)%list
              ∧ ∃ m', (engine_call c (MockE m, env)).2.1 = MockE m') as (d & Hd & Heq & m' & Hm').
    { destruct c as [qs context|input|]; unfold engine_call, initialize_interview,
        get_ai_response, end_interview, dispatch; cbn [fst snd].
      - exists [mkMessage "assistant" Mock.opening_message]. rewrite mock_initialize_state.
        simpl. eauto 6.
      - destruct (mock_respond_history input m) as (d & Hd & Heq).
        destruct (Mock.get_ai_response input m) as [r m']. simpl in *. eauto 6.
      - exists [mkMessage "assistant" Mock.closing_message]. simpl. eauto 6. }
    rewrite Hm' in *. destruct (engine_call c (MockE m, env)) as [r [e' env']].
    simpl in Hm'; subst e'. simpl. rewrite Heq. apply Forall_app; auto.
  - (* OpenAI *)
    destruct c as [qs context|input|]; unfold engine_call, initialize_interview,
      get_ai_response, end_interview, dispatch; cbn [fst snd].
    + destruct (openai_initialize_history qs context o env) as (d & Hd & Heq).
      destruct (OpenAI.initialize_interview qs context (o, env)) as [r [o' env']].
      simpl in *. rewrite orb_true_r. eauto.
    + destruct (openai_respond_history input o env) as (d & Hd & Heq).
      destruct (OpenAI.get_ai_response input (o, env)) as [r [o' env']].
      simpl in *. rewrite orb_false_r, Heq. destruct b.
      * destruct Hs as (p & d0 & -> & Hd0). exists p, (d0 ++ d)%list.
        split; [done|]. apply Forall_app; auto.
      * apply Forall_app; auto.
    + destruct (openai_end_history o env) as (d & Hd & Heq).
      destruct (OpenAI.end_interview (o, env)) as [r [o' env']].
      simpl in *. rewrite orb_false_r, Heq. destruct b.
      * destruct Hs as (p & d0 & -> & Hd0). exists p, (d0 ++ d)%list.
        split; [done|]. apply Forall_app; auto.
      * apply Forall_app; auto.
  - (* Gemini *)
    destruct c as [qs context|input|]; unfold engine_call, initialize_interview,
      get_ai_response, end_interview, dispatch; cbn [fst snd].
    + pose proof (gemini_initialize_history qs context g env) as Hd.
      by destruct (Gemini.initialize_interview qs context (g, env)) as [r [g' env']].
    + destruct (gemini_respond_history input g env) as (d & Hd & Heq).
      destruct (Gemini.get_ai_response input (g, env)) as [r [g' env']].
      simpl in *. rewrite Heq. apply Forall_app; auto.
    + destruct (gemini_end_history g env) as (d & Hd & Heq).
      destruct (Gemini.end_interview (g, env)) as [r [g' env']].
      simpl in *. rewrite Heq. apply Forall_app; auto.
Qed.

Lemma engine_calls_shape (cs : list EngineCall) (b : bool) (e : Engine) (env : Env) :
  history_shape b e →
  history_shape (b || existsb is_initialize cs) (engine_calls cs (e, env)).1.
Proof.
  revert b e env. induction cs as [|c cs IH]; intros b e env Hs; simpl.
  - by rewrite orb_false_r.
  - unfold engine_calls in *. simpl.
    destruct (engine_call c (e, env)) as [r [e' env']] eqn:Hc. simpl.
    rewrite orb_assoc. apply IH.
    pose proof (engine_call_shape c b e env Hs) as Hs'. by rewrite Hc in Hs'.
Qed.

Lemma engine_calls_variant (cs : list EngineCall) (e : Engine) (env : Env) :
  is_openai (engine_calls cs (e, env)).1 = is_openai e.
Proof.
  revert e env. induction cs as [|c cs IH]; intros e env; [done|].
  unfold engine_calls in *. simpl.
  destruct (engine_call c (e, env)) as [r [e' env']] eqn:Hc. simpl.
  rewrite IH. pose proof (engine_call_variant c e env) as Hv. by rewrite Hc in Hv.
Qed.

(** ** The summary *)

(** C2, as the code has it.  Take an engine of any of the three classes
    whose history is empty, as its constructor leaves it, and make any
    calls of [initialize_interview], [get_ai_response] and [end_interview]
    on it, each of which may return or raise.  For a scripted engine and
    for a Gemini engine the summary then has
    [total_messages = student_messages + ai_messages].  For an OpenAI
    engine, whose history also holds the system prompt, this holds until
    the first [initialize_interview], and afterwards
    [total_messages = student_messages + ai_messages + 1]. *)
Theorem summary_counts (cs : list EngineCall) (e : Engine) (env : Env) :
  conversation_history e = [] →
  let s := get_conversation_summary (engine_calls cs (e, env)).1 in
  if is_openai e && existsb is_initialize cs
  then total_messages s = student_messages s + ai_messages s + 1
  else balanced s.
Proof.
  intros He s.
  assert (history_shape false e) as Hs.
  { destruct e; simpl in *; rewrite He; constructor. }
  apply (engine_calls_shape cs false e env) in Hs. simpl in Hs.
  pose proof (engine_calls_variant cs e env) as Hv.
  subst s. destruct (engine_calls cs (e, env)) as [e' env']. simpl in *.
  destruct e' as [m|o|g]; simpl in *; rewrite <-Hv; simpl.
  - by apply summary_of_dialogue.
  - destruct (existsb is_initialize cs).
    + destruct Hs as (p & d & Heq & Hd). unfold OpenAI.get_conversation_summary.
      rewrite Heq. by apply summary_of_system.
    + by apply summary_of_dialogue.
  - by apply summary_of_dialogue.
Qed.

(** C2, as the specification states it, fails for the OpenAI engine: after
    one [initialize_interview] that the provider answers, the history is
    the system prompt, the directive and the greeting, so the summary
    counts 3 messages, 1 of the student and 1 of the interviewer. *)
Lemma openai_summary_not_balanced :
  let env := mkEnv ∅ true true (λ _ _, Returns "Welcome.") 0 in
  let s := get_conversation_summary
             (engine_calls [Initialize ["Q1"] None] (OpenAIE (OpenAI.mk "sk" []), env)).1 in
  conversation_history (OpenAIE (OpenAI.mk "sk" [])) = []
  ∧ total_messages s = 3 ∧ student_messages s = 1 ∧ ai_messages s = 1
  ∧ ¬ balanced s.
Proof. vm_compute. by repeat split. Qed.

(** ** Re-initializing an engine *)

(** The two provider-backed engines start from a clean history: what
    [initialize_interview] leaves does not depend on what was there. *)
Lemma openai_initialize_resets (qs : list string) (context : option Dict)
    (k : string) (h : list Message) (env : Env) :
  OpenAI.initialize_interview qs context (OpenAI.mk k h, env)
  = OpenAI.initialize_interview qs context (OpenAI.mk k [], env).
Proof. reflexivity. Qed.

Lemma gemini_initialize_resets (qs : list string) (context : option Dict)
    (k p : string) (c : option Gemini.ChatSession) (h : list Message) (env : Env) :
  Gemini.initialize_interview qs context (Gemini.mk k c h p, env)
  = Gemini.initialize_interview qs context (Gemini.mk k None [] EmptyString, env).
Proof. reflexivity. Qed.

(** The scripted engine resets its questions and its cursor and keeps its
    history: the greeting comes after whatever was there. *)
Lemma mock_initialize_appends (qs : list string) (context : option Dict) (self : Mock.t) :
  Mock.conversation_history (Mock.initialize_interview qs context self).2
  = (Mock.conversation_history self ++ [mkMessage "assistant" Mock.opening_message])%list.
Proof. reflexivity. Qed.

(** C6 at a scripted engine that is initialized, answers once and is
    initialized again: the three messages of the first interview are still
    in the history, before the second greeting, and the summary counts
    them. *)
Theorem mock_reinitialize_keeps_history :
  let m1 := (Mock.initialize_interview ["Q1"] None Mock.__init__).2 in
  let m2 := (Mock.get_ai_response (Some "A1") m1).2 in
  let m3 := (Mock.initialize_interview ["Q2"] None m2).2 in
  Mock.conversation_history m3
  = [mkMessage "assistant" Mock.opening_message;
     mkMessage "user" "A1";
     mkMessage "assistant" "Q1";
     mkMessage "assistant" Mock.opening_message]
  ∧ Mock.questions m3 = ["Q2"]
  ∧ Mock.current_question_index m3 = 0
  ∧ total_messages (Mock.get_conversation_summary m3) = 4.
Proof. by vm_compute. Qed.

(** ** Steps of the view *)

Lemma external_in_world (r : Request) (w : World) :
  zoom env set_env (external r) w
  = match outside (env w) (calls (env w)) r with
    | Returns text => (Ok text, set_env (count_call (env w)) w)
    | Fails error => (Raise error, set_env (count_call (env w)) w)
    end.
Proof. unfold zoom, external. by destruct (outside _ _ _). Qed.

Lemma create_accepted (row : Conversation) (w : World) (text : string) :
  outside (env w) (calls (env w)) (ConversationInsert row) = Returns text →
  Conversation_objects_create row w
  = (Ok tt, set_conversations (conversations w ++ [row]) (set_env (count_call (env w)) w)).
Proof.
  intros H. unfold Conversation_objects_create, bind. by rewrite external_in_world, H.
Qed.

Lemma create_refused (row : Conversation) (w : World) (error : string) :
  outside (env w) (calls (env w)) (ConversationInsert row) = Fails error →
  Conversation_objects_create row w = (Raise error, set_env (count_call (env w)) w).
Proof.
  intros H. unfold Conversation_objects_create, bind. by rewrite external_in_world, H.
Qed.

Lemma call_live {A : Type} (a : nat) (method : M (Engine * Env) A) (w : World)
    (e e' : Engine) (env' : Env) (r : Result A) :
  heap w !! a = Some e →
  method (e, env w) = (r, (e', env')) →
  call a method w = (r, set_env env' (set_heap (<[a := e']> (heap w)) w)).
Proof. intros He Hm. unfold call. by rewrite He, Hm. Qed.

Lemma new_returns {Obj : Type} (inject : Obj → Engine) (init : M Env Obj) (w : World)
    (obj : Obj) (env' : Env) :
  init (env w) = (Ok obj, env') →
  new inject init w
  = (Ok (new_address w),
     set_heap (<[new_address w := inject obj]> (heap w)) (set_env env' w)).
Proof. intros H. unfold new, bind, zoom, get, modify, ret. by rewrite H. Qed.

Lemma new_raises {Obj : Type} (inject : Obj → Engine) (init : M Env Obj) (w : World)
    (msg : string) (env' : Env) :
  init (env w) = (Raise msg, env') →
  new inject init w = (Raise msg, set_env env' w).
Proof. intros H. unfold new, bind, zoom. by rewrite H. Qed.

Lemma new_address_fresh (w : World) : heap w !! new_address w = None.
Proof. apply not_elem_of_dom. unfold new_address. apply is_fresh. Qed.

(** ** Selecting the engine *)

(** The selection never raises: it allocates the first candidate that
    could be built. *)
Lemma select_interviewer_first_candidate (w : World) :
  select_interviewer w
  = (Ok (new_address w),
     set_heap (<[new_address w := (first_candidate (env w)).1]> (heap w))
              (set_env (first_candidate (env w)).2 w)).
Proof.
  unfold select_interviewer, first_candidate, try_gemini, try_openai.
  unfold bind at 1, get at 1.
  destruct (truthy (os_getenv (env w) "GEMINI_API_KEY")) eqn:Hg.
  - unfold bind at 1, try_except at 1, bind at 1.
    destruct (Gemini.__init__ None (env w)) as [[g|msg] env1] eqn:Hinit.
    + rewrite (new_returns _ _ _ _ _ Hinit). unfold ret at 1.
      unfold bind at 1, get at 1. unfold bind at 1, ret at 1. by unfold ret.
    + rewrite (new_raises _ _ _ _ _ Hinit). unfold ret at 1.
      unfold bind at 1, get at 1. cbn [env set_env].
      destruct (truthy (os_getenv env1 "OPENAI_API_KEY")) eqn:Ho.
      * unfold bind at 1, try_except at 1, bind at 1.
        destruct (OpenAI.__init__ None env1) as [[o|msg'] env2] eqn:Hinit'.
        -- rewrite (new_returns _ _ (set_env env1 w) _ _ Hinit'). by unfold ret.
        -- rewrite (new_raises _ _ (set_env env1 w) _ _ Hinit'). unfold ret at 1.
           by rewrite (new_returns MockE (ret Mock.__init__) _ Mock.__init__ env2).
      * unfold bind at 1, ret at 1.
        by rewrite (new_returns MockE (ret Mock.__init__) _ Mock.__init__ env1).
  - unfold bind at 1, ret at 1. unfold bind at 1, get at 1.
    destruct (truthy (os_getenv (env w) "OPENAI_API_KEY")) eqn:Ho.
    + unfold bind at 1, try_except at 1, bind at 1.
      destruct (OpenAI.__init__ None (env w)) as [[o|msg'] env2] eqn:Hinit'.
      * rewrite (new_returns _ _ _ _ _ Hinit'). by unfold ret.
      * rewrite (new_raises _ _ _ _ _ Hinit'). unfold ret at 1.
        by rewrite (new_returns MockE (ret Mock.__init__) _ Mock.__init__ env2).
    + unfold bind at 1, ret at 1.
      rewrite (new_returns MockE (ret Mock.__init__) _ Mock.__init__ (env w)) by done.
      by destruct w.
Qed.

Ltac wsimpl :=
  cbn [set_env set_heap set_conversations set_active_ai_sessions
       heap env conversations active_ai_sessions session_table fst snd] in *.

Lemma try_gemini_unusable (env : Env) :
  gemini_unusable env → (try_gemini env).1 = None.
Proof.
  unfold try_gemini. intros [->|[msg H]]; [done|].
  destruct (truthy _); [|done]. by destruct (Gemini.__init__ None env) as [[g|msg'] env1].
Qed.

Lemma try_openai_unusable (env : Env) :
  openai_unusable env → (try_openai env).1 = None.
Proof.
  unfold try_openai. intros [->|[msg H]]; [done|].
  destruct (truthy _); [|done]. by destruct (OpenAI.__init__ None env) as [[o|msg'] env1].
Qed.

Lemma outside_try_gemini (env : Env) : outside (try_gemini env).2 = outside env.
Proof.
  unfold try_gemini, Gemini.__init__. run.
  repeat case_match; simplify_eq/=; done.
Qed.

Lemma outside_try_openai (env : Env) : outside (try_openai env).2 = outside env.
Proof.
  unfold try_openai, OpenAI.__init__. run.
  repeat case_match; simplify_eq/=; done.
Qed.

Lemma first_candidate_mock (env : Env) :
  gemini_unusable env →
  openai_unusable (try_gemini env).2 →
  first_candidate env = (MockE Mock.__init__, (try_openai (try_gemini env).2).2)
  ∧ outside (try_openai (try_gemini env).2).2 = outside env.
Proof.
  intros Hg%try_gemini_unusable Ho%try_openai_unusable. split.
  - unfold first_candidate. destruct (try_gemini env) as [og env1]. simpl in *. subst og.
    destruct (try_openai env1) as [oo env2]. simpl in *. by subst oo.
  - by rewrite outside_try_openai, outside_try_gemini.
Qed.

Lemma create_up (row : Conversation) (w : World) :
  database_up (env w) →
  Conversation_objects_create row w
  = (Ok tt, set_conversations (conversations w ++ [row]) (set_env (count_call (env w)) w)).
Proof.
  intros Hdb. destruct (Hdb (calls (env w)) row) as [text H]. by eapply create_accepted.
Qed.

Lemma database_up_outside (env env' : Env) :
  outside env' = outside env → database_up env → database_up env'.
Proof. unfold database_up. by intros ->. Qed.

(** ** Reading the session *)

(** A read in front of a computation. *)
Lemma bind_fetch {St A B : Type} (read : Result A) (k : A → M St B) (s : St) :
  bind (fetch read) k s
  = match read with
    | Ok a => k a s
    | Raise msg => (Raise msg, s)
    end.
Proof. by destruct read. Qed.

(** A session that has questions for the view to go on with: the two
    reads in front of the selection have succeeded. *)
Lemma question_rows_read (session : Session) :
  question_rows session ≠ [] →
  questions_by_order session = Ok (question_rows session)
  ∧ student session = Ok (student_name session).
Proof.
  unfold question_rows, student_name.
  by destruct (questions_by_order session), (student session).
Qed.

(** When the questions cannot be read, or they can and the student
    cannot, the initialize action answers 500 and has done nothing. *)
Lemma initialize_questions_unreadable (request : HttpRequest) (session : Session)
    (w : World) (msg : string) :
  questions_by_order session = Raise msg →
  _initialize_interview request session w
  = (Ok (mkResponse (ErrorBody ("Failed to initialize interview: " +:+ msg))
                    HTTP_500_INTERNAL_SERVER_ERROR), w).
Proof.
  intros H. unfold _initialize_interview, try_except. by rewrite bind_fetch, H.
Qed.

Lemma initialize_student_unreadable (request : HttpRequest) (session : Session)
    (w : World) (q : Question) (rows : list Question) (msg : string) :
  questions_by_order session = Ok (q :: rows) →
  student session = Raise msg →
  _initialize_interview request session w
  = (Ok (mkResponse (ErrorBody ("Failed to initialize interview: " +:+ msg))
                    HTTP_500_INTERNAL_SERVER_ERROR), w).
Proof.
  intros Hq H. unfold _initialize_interview, try_except. rewrite bind_fetch, Hq.
  cbn [map nonempty negb]. by rewrite bind_fetch, H.
Qed.

(** Without questions the student is not read. *)
Lemma initialize_no_questions (request : HttpRequest) (session : Session) (w : World) :
  questions_by_order session = Ok [] →
  _initialize_interview request session w
  = (Ok (mkResponse (ErrorBody "No questions found for this session") HTTP_400_BAD_REQUEST),
     w).
Proof.
  intros H. unfold _initialize_interview, try_except. by rewrite bind_fetch, H.
Qed.

(** When [session.questions.first()] raises, the engine has been
    registered and has been asked its first question, and the greeting is
    in the table: the action answers 500 and leaves them there. *)
Example initialize_first_unreadable :
  let r := _initialize_interview (plain_request "initialize") first_unreadable
                                 (fresh_world ∅ true all_up) in
  r.1 = Ok (mkResponse (ErrorBody "Failed to initialize interview: database is locked")
                       HTTP_500_INTERNAL_SERVER_ERROR)
  ∧ active_ai_sessions r.2 !! session_key first_unreadable = Some 0
  ∧ conversations r.2 = [ai_row first_unreadable Mock.opening_message]
  ∧ heap r.2 !! 0
    = Some (MockE (Mock.mk ["Q1"; "Q2"] 1
                           [mkMessage "assistant" Mock.opening_message;
                            mkMessage "user" "Please ask the first question.";
                            mkMessage "assistant" "Q1"])).
Proof. vm_compute. done. Qed.

(** The sessions of the examples read one table each; in the tied one the
    question whose text comes first is not the one that [first()] gives. *)
Example example_sessions_one_table :
  one_table example_session = true
  ∧ one_table second_session = true
  ∧ one_table tied_session = true
  ∧ head (question_rows tied_session) = Some (mkQuestion 1 "Q1" 0 20)
  ∧ questions_first tied_session = Ok (Some (mkQuestion 2 "Q2" 0 10)).
Proof. vm_compute. done. Qed.

(** C5.  The selection allocates the first candidate that can be built,
    in the order Gemini, OpenAI, scripted, and never raises: a constructor
    that raises only passes the turn to the next candidate.  When neither
    provider can be used (no key, or a constructor that raises), a session
    whose questions and student have been read, and that has questions,
    is initialized on a scripted engine as long as the database takes the
    two rows and gives the first question of the session when it is asked
    for it: the answer is 200, its opening message is the greeting of the
    scripted engine and its first question is the text of the first row
    that the query by [order] has read; the new scripted engine is the one
    registered for the session.  The row of the first question is linked
    to what [session.questions.first()] has given, which is not always
    the question whose text is asked. *)
Theorem initialize_falls_back_to_mock (request : HttpRequest) (session : Session)
    (w : World) :
  select_interviewer w
  = (Ok (new_address w),
     set_heap (<[new_address w := (first_candidate (env w)).1]> (heap w))
              (set_env (first_candidate (env w)).2 w))
  ∧ ∀ q rows question,
      question_rows session = q :: rows →
      questions_first session = Ok question →
      database_up (env w) →
      gemini_unusable (env w) →
      openai_unusable (try_gemini (env w)).2 →
      (first_candidate (env w)).1 = MockE Mock.__init__
      ∧ ∃ w' m,
          _initialize_interview request session w
          = (Ok (mkResponse (InitializeBody Mock.opening_message (question_text q))
                            HTTP_200_OK), w')
          ∧ active_ai_sessions w' !! session_key session = Some (new_address w)
          ∧ heap w' !! new_address w = Some (MockE m)
          ∧ conversations w'
            = (conversations w
               ++ [mkConversation (session_id session) None "ai" Mock.opening_message;
                   mkConversation (session_id session) (question_pk <$> question) "ai"
                                  (question_text q)])%list.
Proof.
  split; [apply select_interviewer_first_candidate|].
  intros q rows question Hq Hfirst Hdb Hg Ho.
  destruct (first_candidate_mock (env w) Hg Ho) as [Hfc Hout].
  set (env2 := (try_openai (try_gemini (env w)).2).2) in *.
  assert (database_up env2) as Hdb2 by by eapply database_up_outside.
  split; [by rewrite Hfc|].
  destruct (question_rows_read session) as [Hrows Hstudent]; [by rewrite Hq|].
  unfold _initialize_interview, try_except.
  rewrite bind_fetch, Hrows, Hq. cbn [map nonempty negb].
  rewrite bind_fetch, Hstudent.
  unfold bind at 1. rewrite select_interviewer_first_candidate, Hfc. cbn [fst snd].
  unfold bind at 1.
  erewrite call_live; [| apply lookup_insert_eq | reflexivity ]. wsimpl.
  unfold bind at 1, modify at 1. wsimpl.
  unfold bind at 1. rewrite create_up by done. wsimpl.
  unfold bind at 1.
  erewrite call_live; [| apply lookup_insert_eq | reflexivity ]. wsimpl.
  rewrite bind_fetch, Hfirst.
  unfold bind at 1. rewrite create_up by done. wsimpl.
  unfold ret. eexists _, _. split; [reflexivity|]. wsimpl.
  split; [apply lookup_insert_eq|]. split; [apply lookup_insert_eq|].
  by rewrite <-(assoc_L (++)).
Qed.

(** ** Responding *)

(** A request that carries a student response, for a session that is
    not in the registry, gets the engine-not-found error; the state stays
    as it was. *)
Lemma respond_unregistered (request : HttpRequest) (session : Session) (w : World) :
  truthy (student_response request) = true →
  active_ai_sessions w !! session_key session = None →
  _get_ai_response request session w = (Ok engine_not_found, w).
Proof.
  intros Ht Hreg. unfold _get_ai_response. rewrite Ht. cbn [negb].
  unfold bind, get. by rewrite Hreg.
Qed.

(** C4.  When the registry has no engine for the session, the respond
    action answers 400 and leaves the whole state as it was: no row is
    written, no request leaves the process.  For a request that carries a
    student response the body is the engine-not-found error. *)
Theorem respond_without_engine (request : HttpRequest) (session : Session) (w : World) :
  active_ai_sessions w !! session_key session = None →
  ∃ resp, _get_ai_response request session w = (Ok resp, w)
          ∧ status resp = HTTP_400_BAD_REQUEST
          ∧ (truthy (student_response request) = true → resp = engine_not_found).
Proof.
  intros Hreg. unfold _get_ai_response.
  destruct (truthy (student_response request)); cbn [negb].
  - unfold bind, get. rewrite Hreg. eexists. by repeat split.
  - eexists. by repeat split.
Qed.

(** The respond action on a session that has an engine, step by step. *)
Lemma respond_steps (request : HttpRequest) (session : Session) (w : World)
    (a : nat) (s : string) :
  student_response request = Some s →
  str_truthy s = true →
  active_ai_sessions w !! session_key session = Some a →
  _get_ai_response request session w
  = try_except
      (Conversation_objects_create (student_row session s) ;;;
       ai_response <- call a (get_ai_response (Some s)) ;;
       Conversation_objects_create (ai_row session ai_response) ;;;
       ret (mkResponse (RespondBody ai_response) HTTP_200_OK))
      (λ e, ret (mkResponse (ErrorBody ("Failed to get AI response: " +:+ e))
                            HTTP_500_INTERNAL_SERVER_ERROR)) w.
Proof.
  intros Hs Ht Hreg. unfold _get_ai_response. rewrite Hs. cbn [truthy]. rewrite Ht.
  cbn [negb]. unfold bind at 1, get at 1. by rewrite Hreg.
Qed.

(** C3.  On a session that has an engine, the respond action writes the
    row of the student first and calls the engine afterwards, on the world
    in which the insert has been made.  If that call raises, the answer is
    500 and the conversation table is the old one followed by the row of
    the student. *)
Theorem respond_keeps_student_row (request : HttpRequest) (session : Session)
    (w : World) (a : nat) (e e' : Engine) (s text msg : string) (env' : Env) :
  student_response request = Some s →
  str_truthy s = true →
  active_ai_sessions w !! session_key session = Some a →
  heap w !! a = Some e →
  outside (env w) (calls (env w)) (ConversationInsert (student_row session s)) = Returns text →
  get_ai_response (Some s) (e, count_call (env w)) = (Raise msg, (e', env')) →
  ∃ w', _get_ai_response request session w
        = (Ok (mkResponse (ErrorBody ("Failed to get AI response: " +:+ msg))
                          HTTP_500_INTERNAL_SERVER_ERROR), w')
      ∧ conversations w' = (conversations w ++ [student_row session s])%list
      ∧ active_ai_sessions w' = active_ai_sessions w.
Proof.
  intros Hs Ht Hreg Hheap Hdb Hraise.
  rewrite (respond_steps _ _ _ a s) by done.
  unfold try_except, bind at 1. rewrite (create_accepted _ _ text) by done.
  unfold bind at 1. erewrite call_live; [| exact Hheap | exact Hraise ].
  unfold ret. eexists. by repeat split.
Qed.

(** If the database refuses the row of the student, the engine is not
    called: no object changes. *)
Lemma respond_insert_refused (request : HttpRequest) (session : Session)
    (w : World) (a : nat) (s msg : string) :
  student_response request = Some s →
  str_truthy s = true →
  active_ai_sessions w !! session_key session = Some a →
  outside (env w) (calls (env w)) (ConversationInsert (student_row session s)) = Fails msg →
  _get_ai_response request session w
  = (Ok (mkResponse (ErrorBody ("Failed to get AI response: " +:+ msg))
                    HTTP_500_INTERNAL_SERVER_ERROR),
     set_env (count_call (env w)) w).
Proof.
  intros Hs Ht Hreg Hdb. rewrite (respond_steps _ _ _ a s) by done.
  unfold try_except, bind at 1. by rewrite (create_refused _ _ msg).
Qed.

(** A session that has an engine never gets the 400 of the respond
    action: the answer is 200 or 500, and the engine stays registered. *)
Lemma respond_finds_engine (request : HttpRequest) (session : Session) (w : World) (a : nat) :
  truthy (student_response request) = true →
  active_ai_sessions w !! session_key session = Some a →
  ∃ resp w', _get_ai_response request session w = (Ok resp, w')
             ∧ (status resp = HTTP_200_OK ∨ status resp = HTTP_500_INTERNAL_SERVER_ERROR)
             ∧ active_ai_sessions w' = active_ai_sessions w.
Proof.
  intros Ht Hreg. destruct (student_response request) as [s|] eqn:Hs; [|done].
  rewrite (respond_steps _ _ _ a s) by done.
  unfold Conversation_objects_create, call. run.
  repeat case_match; simplify_eq/=; eexists _, _; (split; [reflexivity|]); wsimpl; auto.
Qed.

(** ** Ending *)

(** The end action on a session that has an engine, step by step. *)
Lemma end_steps (request : HttpRequest) (session : Session) (w : World) (a : nat) :
  active_ai_sessions w !! session_key session = Some a →
  _end_interview request session w
  = try_except
      (closing_message <- call a end_interview ;;
       Conversation_objects_create (ai_row session closing_message) ;;;
       summary <- call a (λ s, (Ok (get_conversation_summary s.1), s)) ;;
       modify (λ w, set_active_ai_sessions
                      (delete (session_key session) (active_ai_sessions w)) w) ;;;
       ret (mkResponse (EndBody closing_message summary) HTTP_200_OK))
      (λ e, ret (mkResponse (ErrorBody ("Failed to end interview: " +:+ e))
                            HTTP_500_INTERNAL_SERVER_ERROR)) w.
Proof. intros Hreg. unfold _end_interview. unfold bind at 1, get at 1. by rewrite Hreg. Qed.

(** C7.  On a session that has an engine, when the [end_interview] of
    the engine returns and the database takes the row, the end action
    answers 200 with the closing message and the summary of the engine as
    [end_interview] left it; the closing message is the one row added to
    the conversation table, said by the interviewer; the session is no
    longer in the registry, and a respond action that follows gets the
    engine-not-found error and changes nothing. *)
Theorem end_evicts_engine (request : HttpRequest) (session : Session) (w : World)
    (a : nat) (e e' : Engine) (closing text : string) (env' : Env) :
  active_ai_sessions w !! session_key session = Some a →
  heap w !! a = Some e →
  end_interview (e, env w) = (Ok closing, (e', env')) →
  outside env' (calls env') (ConversationInsert (ai_row session closing)) = Returns text →
  ∃ w', _end_interview request session w
        = (Ok (mkResponse (EndBody closing (get_conversation_summary e')) HTTP_200_OK), w')
      ∧ conversations w' = (conversations w ++ [ai_row session closing])%list
      ∧ active_ai_sessions w' = delete (session_key session) (active_ai_sessions w)
      ∧ heap w' !! a = Some e'
      ∧ ∀ request',
          truthy (student_response request') = true →
          _get_ai_response request' session w' = (Ok engine_not_found, w').
Proof.
  intros Hreg Hheap Hend Hdb. rewrite (end_steps _ _ _ a) by done.
  unfold try_except, bind at 1. erewrite call_live; [| exact Hheap | exact Hend ].
  unfold bind at 1. rewrite (create_accepted _ _ text) by done. wsimpl.
  unfold bind at 1. erewrite call_live; [| apply lookup_insert_eq | reflexivity ]. wsimpl.
  unfold bind at 1, modify at 1, ret. wsimpl.
  eexists. split; [reflexivity|]. wsimpl. repeat split.
  - apply lookup_insert_eq.
  - intros request' Ht. apply respond_unregistered; [done|].
    wsimpl. apply lookup_delete_eq.
Qed.

(** A session that has an engine never gets the 400 of the end action. *)
Lemma end_finds_engine (request : HttpRequest) (session : Session) (w : World) (a : nat) :
  active_ai_sessions w !! session_key session = Some a →
  ∃ resp w', _end_interview request session w = (Ok resp, w')
             ∧ (status resp = HTTP_200_OK ∨ status resp = HTTP_500_INTERNAL_SERVER_ERROR).
Proof.
  intros Hreg. rewrite (end_steps _ _ _ a) by done.
  unfold Conversation_objects_create, call. run.
  repeat case_match; simplify_eq/=; eexists _, _; (split; [reflexivity|]); auto.
Qed.

(** C10.  On a session that has an engine, when the end action fails
    after it has found the engine, the answer is 500 and the registry is
    what it was: the session still has its engine, the object is still
    there (as [end_interview] left it), and no row was written.  A
    respond or an end action that follows finds the engine: neither gets
    the 400 of a missing engine. *)
Theorem failed_end_keeps_engine (request : HttpRequest) (session : Session) (w : World)
    (a : nat) (e e' : Engine) (env' : Env) (msg : string) :
  active_ai_sessions w !! session_key session = Some a →
  heap w !! a = Some e →
  end_fails session e (env w) e' env' msg →
  ∃ w', _end_interview request session w
        = (Ok (mkResponse (ErrorBody ("Failed to end interview: " +:+ msg))
                          HTTP_500_INTERNAL_SERVER_ERROR), w')
      ∧ active_ai_sessions w' = active_ai_sessions w
      ∧ heap w' !! a = Some e'
      ∧ conversations w' = conversations w
      ∧ (∀ request',
           truthy (student_response request') = true →
           ∃ resp w'', _get_ai_response request' session w' = (Ok resp, w'')
                       ∧ status resp ≠ HTTP_400_BAD_REQUEST)
      ∧ (∀ request',
           ∃ resp w'', _end_interview request' session w' = (Ok resp, w'')
                       ∧ status resp ≠ HTTP_400_BAD_REQUEST).
Proof.
  intros Hreg Hheap Hfail. rewrite (end_steps _ _ _ a) by done.
  assert (∃ w', (try_except
      (closing_message <- call a end_interview ;;
       Conversation_objects_create (ai_row session closing_message) ;;;
       summary <- call a (λ s, (Ok (get_conversation_summary s.1), s)) ;;
       modify (λ w, set_active_ai_sessions
                      (delete (session_key session) (active_ai_sessions w)) w) ;;;
       ret (mkResponse (EndBody closing_message summary) HTTP_200_OK))
      (λ e, ret (mkResponse (ErrorBody ("Failed to end interview: " +:+ e))
                            HTTP_500_INTERNAL_SERVER_ERROR)) w)
      = (Ok (mkResponse (ErrorBody ("Failed to end interview: " +:+ msg))
                          HTTP_500_INTERNAL_SERVER_ERROR), w')
      ∧ active_ai_sessions w' = active_ai_sessions w
      ∧ heap w' !! a = Some e'
      ∧ conversations w' = conversations w) as (w' & -> & Hreg' & Hheap' & Hconv).
  { destruct Hfail as [msg e' env' Hend | closing msg e' env' Hend Hdb].
    - unfold try_except, bind at 1. erewrite call_live; [| exact Hheap | exact Hend ].
      unfold ret. eexists. split; [reflexivity|]. wsimpl.
      repeat split. apply lookup_insert_eq.
    - unfold try_except, bind at 1. erewrite call_live; [| exact Hheap | exact Hend ].
      unfold bind at 1. rewrite (create_refused _ _ msg) by done.
      unfold ret. eexists. split; [reflexivity|]. wsimpl.
      repeat split. apply lookup_insert_eq. }
  exists w'. rewrite Hreg' in *. repeat split; try done.
  - intros request' Ht.
    destruct (respond_finds_engine request' session w' a Ht) as (resp & w'' & H & Hst & _);
      [by rewrite Hreg'|].
    exists resp, w''. split; [done|]. by destruct Hst as [-> | ->].
  - intros request'.
    destruct (end_finds_engine request' session w' a) as (resp & w'' & H & Hst);
      [by rewrite Hreg'|].
    exists resp, w''. split; [done|]. by destruct Hst as [-> | ->].
Qed.

(** ** The registry *)

Lemma create_cases (row : Conversation) (w : World) :
  Conversation_objects_create row w
  = (Ok tt, set_conversations (conversations w ++ [row]) (set_env (count_call (env w)) w))
  ∨ ∃ msg, Conversation_objects_create row w = (Raise msg, set_env (count_call (env w)) w).
Proof.
  destruct (outside (env w) (calls (env w)) (ConversationInsert row)) as [text|msg] eqn:H.
  - left. by eapply create_accepted.
  - right. exists msg. by eapply create_refused.
Qed.

Lemma initialize_effect (request : HttpRequest) (session : Session) (w : World) :
  ∃ resp w',
    _initialize_interview request session w = (Ok resp, w')
    ∧ ((active_ai_sessions w' = active_ai_sessions w
        ∧ status resp ≠ HTTP_200_OK
        ∧ (dom (heap w') = dom (heap w) ∨ dom (heap w') = {[new_address w]} ∪ dom (heap w)))
       ∨ (active_ai_sessions w'
          = <[session_key session := new_address w]> (active_ai_sessions w)
          ∧ dom (heap w') = {[new_address w]} ∪ dom (heap w))).
Proof.
  unfold _initialize_interview, try_except. rewrite bind_fetch.
  destruct (questions_by_order session) as [[|q rows]|msg]; cbn [map nonempty negb].
  1,3: unfold ret; eexists _, _; (split; [reflexivity|]); left; by auto.
  rewrite bind_fetch.
  destruct (student session) as [name|msg].
  2:{ unfold ret. eexists _, _. split; [reflexivity|]. left. by auto. }
  unfold bind at 1. rewrite select_interviewer_first_candidate.
  destruct (first_candidate (env w)) as [e0 env1]. cbn [fst snd].
  unfold bind at 1.
  match goal with |- context [call _ ?m _] =>
    destruct (m (e0, env1)) as [[opening|msg] [e1 env1']] eqn:Hinit end;
    (erewrite call_live; [| apply lookup_insert_eq | exact Hinit ]); wsimpl.
  2:{ unfold ret. eexists _, _. split; [reflexivity|]. left. wsimpl.
      split; [done|]. split; [done|]. right. by rewrite ?insert_insert_eq, dom_insert_L. }
  unfold bind at 1, modify at 1. wsimpl.
  unfold bind at 1.
  match goal with |- context [Conversation_objects_create ?row ?w1] =>
    destruct (create_cases row w1) as [-> | [msg ->]] end; wsimpl.
  2:{ unfold ret. eexists _, _. split; [reflexivity|]. right. wsimpl.
      split; [done|]. by rewrite ?insert_insert_eq, dom_insert_L. }
  unfold bind at 1.
  match goal with |- context [call _ ?m _] =>
    destruct (m (e1, count_call env1')) as [[first|msg] [e2 env2]] eqn:Hfirst end;
    (erewrite call_live; [| apply lookup_insert_eq | exact Hfirst ]); wsimpl.
  2:{ unfold ret. eexists _, _. split; [reflexivity|]. right. wsimpl.
      split; [done|]. by rewrite ?insert_insert_eq, dom_insert_L. }
  rewrite bind_fetch.
  destruct (questions_first session) as [question|msg].
  2:{ unfold ret. eexists _, _. split; [reflexivity|]. right. wsimpl.
      split; [done|]. by rewrite ?insert_insert_eq, dom_insert_L. }
  unfold bind at 1.
  match goal with |- context [Conversation_objects_create ?row ?w1] =>
    destruct (create_cases row w1) as [-> | [msg ->]] end; wsimpl.
  2:{ unfold ret. eexists _, _. split; [reflexivity|]. right. wsimpl.
      split; [done|]. by rewrite ?insert_insert_eq, dom_insert_L. }
  unfold ret. eexists _, _. split; [reflexivity|]. right. wsimpl.
  split; [done|]. by rewrite ?insert_insert_eq, dom_insert_L.
Qed.

(** A method call changes the object it is made on and the world
    outside, and nothing else. *)
Lemma call_effect {A : Type} (a : nat) (method : M (Engine * Env) A) (w : World) :
  ∃ r w', call a method w = (r, w')
          ∧ active_ai_sessions w' = active_ai_sessions w
          ∧ dom (heap w') = dom (heap w)
          ∧ conversations w' = conversations w.
Proof.
  unfold call. destruct (heap w !! a) as [e|] eqn:He.
  - destruct (method (e, env w)) as [r [e' env']]. eexists _, _.
    split; [reflexivity|]. wsimpl. repeat split.
    apply dom_insert_lookup_L. by rewrite He.
  - by eexists _, _.
Qed.

Lemma create_effect (row : Conversation) (w : World) :
  ∃ r w', Conversation_objects_create row w = (r, w')
          ∧ active_ai_sessions w' = active_ai_sessions w
          ∧ heap w' = heap w.
Proof.
  destruct (create_cases row w) as [-> | [msg ->]]; by eexists _, _.
Qed.

Lemma respond_effect (request : HttpRequest) (session : Session) (w : World) :
  ∃ resp w', _get_ai_response request session w = (Ok resp, w')
             ∧ active_ai_sessions w' = active_ai_sessions w
             ∧ dom (heap w') = dom (heap w).
Proof.
  unfold _get_ai_response. destruct (truthy (student_response request)); cbn [negb].
  2:{ by eexists _, _. }
  unfold bind at 1, get at 1.
  destruct (active_ai_sessions w !! session_key session) as [a|]; [|by eexists _, _].
  unfold try_except, bind at 1.
  match goal with |- context [Conversation_objects_create ?row ?w0] =>
    destruct (create_effect row w0) as ([[]|msg] & w1 & -> & Hr1 & Hh1) end.
  2:{ eexists _, _. split; [reflexivity|]. by rewrite Hr1, Hh1. }
  unfold bind at 1.
  match goal with |- context [call a ?m w1] =>
    destruct (call_effect a m w1) as ([ai_response|msg] & w2 & -> & Hr2 & Hh2 & _) end.
  2:{ eexists _, _. split; [reflexivity|]. by rewrite Hr2, Hh2, Hr1, Hh1. }
  unfold bind at 1.
  match goal with |- context [Conversation_objects_create ?row ?w0] =>
    destruct (create_effect row w0) as ([[]|msg] & w3 & -> & Hr3 & Hh3) end;
    eexists _, _; (split; [reflexivity|]); by rewrite Hr3, Hh3, Hr2, Hh2, Hr1, Hh1.
Qed.

Lemma end_effect (request : HttpRequest) (session : Session) (w : World) :
  ∃ resp w', _end_interview request session w = (Ok resp, w')
             ∧ (active_ai_sessions w' = active_ai_sessions w
                ∨ active_ai_sessions w' = delete (session_key session) (active_ai_sessions w))
             ∧ dom (heap w') = dom (heap w).
Proof.
  unfold _end_interview. unfold bind at 1, get at 1.
  destruct (active_ai_sessions w !! session_key session) as [a|]; [|by eexists _, _; auto].
  unfold try_except, bind at 1.
  match goal with |- context [call a ?m w] =>
    destruct (call_effect a m w) as ([closing|msg] & w1 & -> & Hr1 & Hh1 & _) end.
  2:{ eexists _, _. split; [reflexivity|]. rewrite Hr1, Hh1. auto. }
  unfold bind at 1.
  match goal with |- context [Conversation_objects_create ?row ?w0] =>
    destruct (create_effect row w0) as ([[]|msg] & w2 & -> & Hr2 & Hh2) end.
  2:{ eexists _, _. split; [reflexivity|]. rewrite Hr2, Hh2, Hr1, Hh1. auto. }
  unfold bind at 1.
  match goal with |- context [call a ?m w2] =>
    destruct (call_effect a m w2) as ([summary|msg] & w3 & -> & Hr3 & Hh3 & _) end.
  2:{ eexists _, _. split; [reflexivity|]. rewrite Hr3, Hh3, Hr2, Hh2, Hr1, Hh1. auto. }
  unfold bind at 1, modify at 1, ret. eexists _, _. split; [reflexivity|]. wsimpl.
  rewrite Hr3, Hh3, Hr2, Hh2, Hr1, Hh1. auto.
Qed.

Lemma new_address_not_in_dom (w : World) : new_address w ∉ dom (heap w).
Proof. unfold new_address. apply is_fresh. Qed.

Lemma post_step (request : HttpRequest) (w : World) :
  ∃ resp w', post request w = (Ok resp, w') ∧ registry_step w w'.
Proof.
  unfold post. destruct (truthy (req_session_id request)); cbn [negb].
  2:{ eexists _, _. split; [reflexivity|]. by apply registry_same. }
  unfold bind at 1, get at 1.
  destruct (session_table w !! _) as [session|].
  2:{ eexists _, _. split; [reflexivity|]. by apply registry_same. }
  repeat case_decide.
  - destruct (initialize_effect request session w)
      as (resp & w' & -> & [(Hr & _ & [Hh|Hh]) | (Hr & Hh)]);
      eexists _, _; (split; [reflexivity|]).
    + apply registry_same; [done|]. by rewrite Hh.
    + apply registry_same; [done|]. rewrite Hh. apply union_subseteq_r.
    + eapply registry_put; [done| |done]. apply new_address_not_in_dom.
  - destruct (respond_effect request session w) as (resp & w' & -> & Hr & Hh).
    eexists _, _. split; [reflexivity|]. apply registry_same; [done|]. by rewrite Hh.
  - destruct (end_effect request session w) as (resp & w' & -> & [Hr|Hr] & Hh);
      eexists _, _; (split; [reflexivity|]).
    + apply registry_same; [done|]. by rewrite Hh.
    + eapply registry_evict; [done|]. by rewrite Hh.
  - eexists _, _. split; [reflexivity|]. by apply registry_same.
Qed.

Lemma registry_step_ok (w w' : World) :
  registry_ok w → registry_step w w' → registry_ok w'.
Proof.
  intros [Hlive Hinj] [Hr Hh | k Hr Hh | k a Hr Ha Hh]; split; rewrite Hr.
  - intros k0 a0 H0. apply Hh. by eapply Hlive.
  - done.
  - intros k0 a0 [_ H0]%lookup_delete_Some. apply Hh. by eapply Hlive.
  - intros k1 k2 a0 [_ H1]%lookup_delete_Some [_ H2]%lookup_delete_Some. by eapply Hinj.
  - intros k0 a0 [[_ <-] | [_ H0]]%lookup_insert_Some; rewrite Hh.
    + apply elem_of_union_l. by apply elem_of_singleton.
    + apply elem_of_union_r. by eapply Hlive.
  - intros k1 k2 a0 [[<- <-] | [Hk1 H1]]%lookup_insert_Some
                    [[<- Ha2] | [Hk2 H2]]%lookup_insert_Some.
    + done.
    + destruct Ha. by eapply Hlive.
    + subst a0. destruct Ha. by eapply Hlive.
    + by eapply Hinj.
Qed.

Lemma reachable_registry_ok (w : World) : reachable w → registry_ok w.
Proof.
  induction 1 as [w Hempty | request w _ IH | w w' _ IH Hh Hr].
  - split; rewrite Hempty; intros *; by rewrite lookup_empty.
  - destruct (post_step request w) as (resp & w' & Hpost & Hstep). rewrite Hpost.
    by eapply registry_step_ok.
  - destruct IH as [Hlive Hinj]. split; rewrite Hr, ?Hh; done.
Qed.

(** C8.  In every world the process can reach, a registered session has
    exactly one engine, a live object that no other session has.  When
    the initialize action has answered 200 for a session and is called
    again for it, the session still has exactly one engine afterwards and
    the registry has the same keys; if the second call answers 200 too,
    that engine is an object made by the second call, not the one of the
    first: the registry entry has been overwritten. *)
Theorem registry_one_engine_per_session (w : World) :
  reachable w →
  registry_ok w
  ∧ ∀ request1 request2 session resp1 w1 resp2 w2,
      _initialize_interview request1 session w = (Ok resp1, w1) →
      status resp1 = HTTP_200_OK →
      _initialize_interview request2 session w1 = (Ok resp2, w2) →
      ∃ a1 a2,
        active_ai_sessions w1 !! session_key session = Some a1
        ∧ active_ai_sessions w2 !! session_key session = Some a2
        ∧ a2 ∈ dom (heap w2)
        ∧ dom (active_ai_sessions w2) = dom (active_ai_sessions w1)
        ∧ registry_ok w2
        ∧ (status resp2 = HTTP_200_OK →
           a2 ≠ a1
           ∧ (a2 ∉ dom (heap w1))
           ∧ active_ai_sessions w2
             = <[session_key session := a2]> (active_ai_sessions w)).
Proof.
  intros Hreach. pose proof (reachable_registry_ok w Hreach) as Hok.
  split; [done|].
  intros request1 request2 session resp1 w1 resp2 w2 H1 Hst1 H2.
  destruct (initialize_effect request1 session w)
    as (resp1' & w1' & H1' & [(_ & Hne & _) | (Hr1 & Hh1)]);
    rewrite H1 in H1'; injection H1' as <- <-; try done.
  assert (registry_ok w1) as Hok1.
  { eapply registry_step_ok; [exact Hok|].
    eapply registry_put; [done| |done]. apply new_address_not_in_dom. }
  assert (new_address w ∈ dom (heap w1)) as Ha1.
  { rewrite Hh1. apply elem_of_union_l. by apply elem_of_singleton. }
  exists (new_address w).
  destruct (initialize_effect request2 session w1)
    as (resp2' & w2' & H2' & [(Hr2 & Hne & Hh2) | (Hr2 & Hh2)]);
    rewrite H2 in H2'; injection H2' as <- <-.
  - assert (registry_ok w2) as [Hlive2 Hinj2].
    { eapply registry_step_ok; [exact Hok1|]. apply registry_same; [done|].
      destruct Hh2 as [-> | ->]; [done|]. apply union_subseteq_r. }
    exists (new_address w). rewrite Hr1, lookup_insert_eq.
    repeat split; try done.
    + by rewrite Hr2, Hr1, lookup_insert_eq.
    + destruct Hh2 as [-> | ->]; [done|]. by apply elem_of_union_r.
    + by rewrite Hr2, Hr1.
  - assert (registry_ok w2) as [Hlive2 Hinj2].
    { eapply registry_step_ok; [exact Hok1|].
      eapply registry_put; [done| |done]. apply new_address_not_in_dom. }
    exists (new_address w1). rewrite Hr1, !lookup_insert_eq.
    repeat split; try done.
    + by rewrite Hr2, lookup_insert_eq.
    + rewrite Hh2. apply elem_of_union_l. by apply elem_of_singleton.
    + rewrite Hr2, Hr1. apply dom_insert_lookup_L. by rewrite lookup_insert_eq.
    + intros Heq. apply (new_address_not_in_dom w1). by rewrite Heq.
    + apply new_address_not_in_dom.
    + rewrite Hr2, Hr1. by rewrite insert_insert_eq.
Qed.

(** ** The theorems on concrete worlds *)

Lemma summary_counts_witness :
  let e := OpenAIE (OpenAI.mk "sk" []) in
  let env := mkEnv ∅ true true all_up 0 in
  let s := get_conversation_summary
             (engine_calls [Initialize ["Q1"] None; Respond (Some "yes"); End] (e, env)).1 in
  conversation_history e = []
  ∧ total_messages s = student_messages s + ai_messages s + 1.
Proof.
  split; [reflexivity|].
  exact (summary_counts [Initialize ["Q1"] None; Respond (Some "yes"); End]
                        (OpenAIE (OpenAI.mk "sk" [])) (mkEnv ∅ true true all_up 0) eq_refl).
Defined.

Lemma respond_without_engine_witness :
  let w := fresh_world ∅ true all_up in
  active_ai_sessions w !! session_key example_session = None
  ∧ ∃ resp, _get_ai_response (respond_request "late") example_session w = (Ok resp, w)
            ∧ status resp = HTTP_400_BAD_REQUEST
            ∧ (truthy (student_response (respond_request "late")) = true
               → resp = engine_not_found).
Proof.
  split; [reflexivity|].
  exact (respond_without_engine (respond_request "late") example_session
                                (fresh_world ∅ true all_up) eq_refl).
Defined.

Lemma respond_keeps_student_row_witness :
  let w := openai_world provider_down in
  ∃ w', _get_ai_response (respond_request "answer1") example_session w
        = (Ok (mkResponse (ErrorBody ("Failed to get AI response: "
                                      +:+ "AI service error: connection refused"))
                          HTTP_500_INTERNAL_SERVER_ERROR), w')
      ∧ conversations w' = (conversations w ++ [student_row example_session "answer1"])%list
      ∧ active_ai_sessions w' = active_ai_sessions w.
Proof.
  eapply (respond_keeps_student_row (respond_request "answer1") example_session
            (openai_world provider_down) 0
            (OpenAIE (OpenAI.mk "sk" [mkMessage "system" "Ask Q1."])) _
            "answer1" "inserted" "AI service error: connection refused" _).
  - reflexivity.
  - reflexivity.
  - reflexivity.
  - reflexivity.
  - reflexivity.
  - reflexivity.
Defined.

Lemma initialize_falls_back_to_mock_witness :
  let w := fresh_world both_keys false provider_down in
  (question_rows tied_session = [mkQuestion 1 "Q1" 0 20; mkQuestion 2 "Q2" 0 10]
   ∧ questions_first tied_session = Ok (Some (mkQuestion 2 "Q2" 0 10))
   ∧ database_up (env w)
   ∧ gemini_unusable (env w)
   ∧ openai_unusable (try_gemini (env w)).2)
  ∧ (first_candidate (env w)).1 = MockE Mock.__init__
  ∧ ∃ w' m,
      _initialize_interview (plain_request "initialize") tied_session w
      = (Ok (mkResponse (InitializeBody Mock.opening_message "Q1") HTTP_200_OK), w')
      ∧ active_ai_sessions w' !! session_key tied_session = Some (new_address w)
      ∧ heap w' !! new_address w = Some (MockE m)
      ∧ conversations w'
        = (conversations w
           ++ [mkConversation "s-1" None "ai" Mock.opening_message;
               mkConversation "s-1" (Some 2) "ai" "Q1"])%list.
Proof.
  assert (database_up (env (fresh_world both_keys false provider_down))) as Hdb.
  { intros n row. by exists "inserted". }
  assert (gemini_unusable (env (fresh_world both_keys false provider_down))) as Hg.
  { right. eexists. reflexivity. }
  assert (openai_unusable (try_gemini (env (fresh_world both_keys false provider_down))).2)
    as Ho.
  { right. eexists. reflexivity. }
  split; [by repeat split|].
  exact (proj2 (initialize_falls_back_to_mock (plain_request "initialize") tied_session
                  (fresh_world both_keys false provider_down))
               (mkQuestion 1 "Q1" 0 20) [mkQuestion 2 "Q2" 0 10]
               (Some (mkQuestion 2 "Q2" 0 10)) eq_refl eq_refl Hdb Hg Ho).
Defined.

Lemma end_evicts_engine_witness :
  let w := mock_world in
  ∃ e' w', _end_interview (plain_request "end") example_session w
           = (Ok (mkResponse (EndBody Mock.closing_message (get_conversation_summary e'))
                             HTTP_200_OK), w')
         ∧ conversations w'
           = (conversations w ++ [ai_row example_session Mock.closing_message])%list
         ∧ active_ai_sessions w'
           = delete (session_key example_session) (active_ai_sessions w)
         ∧ heap w' !! 0 = Some e'
         ∧ ∀ request',
             truthy (student_response request') = true →
             _get_ai_response request' example_session w' = (Ok engine_not_found, w').
Proof.
  cbv zeta. eexists.
  eapply (end_evicts_engine (plain_request "end") example_session mock_world 0 _ _
            Mock.closing_message "Welcome." _).
  - reflexivity.
  - reflexivity.
  - reflexivity.
  - reflexivity.
Defined.

Lemma failed_end_keeps_engine_witness :
  (let w := openai_world provider_down in
   ∃ e' w', _end_interview (plain_request "end") example_session w
            = (Ok (mkResponse (ErrorBody ("Failed to end interview: "
                                          +:+ "AI service error: connection refused"))
                              HTTP_500_INTERNAL_SERVER_ERROR), w')
          ∧ active_ai_sessions w' = active_ai_sessions w
          ∧ heap w' !! 0 = Some e'
          ∧ conversations w' = conversations w
          ∧ (∀ request',
               truthy (student_response request') = true →
               ∃ resp w'', _get_ai_response request' example_session w' = (Ok resp, w'')
                           ∧ status resp ≠ HTTP_400_BAD_REQUEST)
          ∧ (∀ request',
               ∃ resp w'', _end_interview request' example_session w' = (Ok resp, w'')
                           ∧ status resp ≠ HTTP_400_BAD_REQUEST))
  ∧ (let w := openai_world database_down in
     ∃ e' w', _end_interview (plain_request "end") example_session w
              = (Ok (mkResponse (ErrorBody ("Failed to end interview: "
                                            +:+ "database is locked"))
                                HTTP_500_INTERNAL_SERVER_ERROR), w')
            ∧ active_ai_sessions w' !! "s-1" = Some 0
            ∧ heap w' !! 0 = Some e').
Proof.
  cbv zeta. split.
  - eexists.
    eapply (failed_end_keeps_engine (plain_request "end") example_session
              (openai_world provider_down) 0 _ _ _ "AI service error: connection refused").
    + reflexivity.
    + reflexivity.
    + apply engine_end_raises. reflexivity.
  - eexists.
    pose proof (λ e e' env', failed_end_keeps_engine (plain_request "end") example_session
                  (openai_world database_down) 0 e e' env' "database is locked" eq_refl) as H.
    edestruct H as (w' & Hend & Hreg & Hheap & _);
      [reflexivity | eapply closing_row_refused; reflexivity |].
    exists w'. rewrite Hreg. by repeat split.
Defined.

Lemma registry_one_engine_per_session_witness :
  let w := fresh_world ∅ true all_up in
  let r1 := _initialize_interview (plain_request "initialize") example_session w in
  let r2 := _initialize_interview (plain_request "initialize") example_session r1.2 in
  reachable w
  ∧ registry_ok w
  ∧ ∃ a1 a2,
      active_ai_sessions r1.2 !! "s-1" = Some a1
      ∧ active_ai_sessions r2.2 !! "s-1" = Some a2
      ∧ a2 ∈ dom (heap r2.2)
      ∧ dom (active_ai_sessions r2.2) = dom (active_ai_sessions r1.2)
      ∧ registry_ok r2.2
      ∧ a2 ≠ a1
      ∧ (a2 ∉ dom (heap r1.2))
      ∧ active_ai_sessions r2.2 = <[ "s-1" := a2 ]> (active_ai_sessions w).
Proof.
  cbv zeta.
  assert (reachable (fresh_world ∅ true all_up)) as Hreach by by apply reachable_start.
  split; [exact Hreach|].
  destruct (registry_one_engine_per_session _ Hreach) as [Hok Hinit].
  split; [exact Hok|].
  edestruct (Hinit (plain_request "initialize") (plain_request "initialize") example_session
                   (mkResponse (InitializeBody Mock.opening_message "Q1") HTTP_200_OK)
                   (_initialize_interview (plain_request "initialize") example_session
                                          (fresh_world ∅ true all_up)).2
                   (mkResponse (InitializeBody Mock.opening_message "Q1") HTTP_200_OK)
                   (_initialize_interview (plain_request "initialize") example_session
                      (_initialize_interview (plain_request "initialize") example_session
                                             (fresh_world ∅ true all_up)).2).2)
    as (a1 & a2 & H1 & H2 & H3 & H4 & H5 & H6).
  - vm_compute. reflexivity.
  - reflexivity.
  - vm_compute. reflexivity.
  - destruct (H6 eq_refl) as (H7 & H8 & H9). exists a1, a2.
    exact (conj H1 (conj H2 (conj H3 (conj H4 (conj H5 (conj H7 (conj H8 H9))))))).
Defined.

(** * Further properties of the engines *)

(** ** Failures at the engine boundary *)

Lemma mock_call_returns (c : EngineCall) (m : Mock.t) (env : Env) :
  ∃ text m', engine_call c (MockE m, env) = (Ok text, (MockE m', env)).
Proof.
  destruct m as [qs i h].
  destruct c as [qs' context|input|]; unfold engine_call, initialize_interview,
    get_ai_response, end_interview, dispatch; cbn [fst snd].
  - by eexists _, _.
  - unfold Mock.get_ai_response. run.
    destruct input as [s|]; [destruct (str_truthy s)|]; simpl;
      (destruct (decide (i < length qs)) as [Hlt|Hge];
       [destruct (lookup_lt_is_Some_2 qs i Hlt) as [q ->]|]); by eexists _, _.
  - by eexists _, _.
Qed.





(** ** The history of a Gemini engine *)

Lemma exchanges_snoc (xs : list (string * string)) (u a : string) :
  exchanges (xs ++ [(u, a)])
  = (exchanges xs ++ [mkMessage "user" u; mkMessage "assistant" a])%list.
Proof. unfold exchanges. by rewrite bind_app. Qed.

Lemma exchanges_cons (u a : string) (xs : list (string * string)) :
  exchanges ((u, a) :: xs) = mkMessage "user" u :: mkMessage "assistant" a :: exchanges xs.
Proof. reflexivity. Qed.

Lemma with_role_exchanges_user (xs : list (string * string)) :
  said_by "user" (exchanges xs) = xs.*1.
Proof.
  unfold said_by in *. induction xs as [|[u a] xs IH]; [done|].
  rewrite exchanges_cons, !with_role_cons. cbn [role].
  rewrite decide_True, decide_False by done. by rewrite fmap_cons, IH.
Qed.

Lemma with_role_exchanges_assistant (xs : list (string * string)) :
  said_by "assistant" (exchanges xs) = xs.*2.
Proof.
  unfold said_by in *. induction xs as [|[u a] xs IH]; [done|].
  rewrite exchanges_cons, !with_role_cons. cbn [role].
  rewrite decide_False, decide_True by done. by rewrite fmap_cons, IH.
Qed.

(** A message sent in the chat either fails and leaves the history alone,
    or adds the message and its answer. *)
Lemma gemini_send_exchange (message : string) (g : Gemini.t) (env : Env) :
  match Gemini._send_message message (g, env) with
  | (Ok answer, (g', _)) =>
      Gemini.conversation_history g'
      = (Gemini.conversation_history g
         ++ [mkMessage "user" message; mkMessage "assistant" answer])%list
  | (Raise _, (g', _)) => Gemini.conversation_history g' = Gemini.conversation_history g
  end
  ∧ Gemini.chat (Gemini._send_message message (g, env)).2.1 = Gemini.chat g.
Proof.
  destruct g as [k c h p]. unfold Gemini._send_message. run.
  destruct c as [c|]; simpl; [|done].
  destruct (outside env _ _); simpl; [|done]. by rewrite <-(assoc_L (++)).
Qed.

Lemma gemini_call_exchanges (c : EngineCall) (g : Gemini.t) (env : Env)
    (xs : list (string * string)) :
  Gemini.conversation_history g = exchanges xs →
  ∃ g' env' r xs',
    engine_call c (GeminiE g, env) = (r, (GeminiE g', env'))
    ∧ Gemini.conversation_history g' = exchanges xs'.
Proof.
  intros Hh.
  destruct c as [qs context|input|]; unfold engine_call, initialize_interview,
    get_ai_response, end_interview, dispatch; cbn [fst snd].
  - destruct g as [k c h p]. unfold Gemini.initialize_interview, Gemini._send_message. run.
    destruct (outside env _ _) as [text|err]; simpl; eexists _, _, _.
    + exists [("Start the interview with a warm greeting.", text)].
      split; reflexivity.
    + exists []. split; reflexivity.
  - unfold Gemini.get_ai_response.
    unfold bind at 1, on_self at 1, zoom at 1, get at 1. cbn [fst snd].
    destruct (Gemini.chat g) as [c|].
    2:{ unfold raise. by eexists _, _, _, xs. }
    assert (∀ message, ∃ g' env' r xs',
              (let '(r, (g', env')) := Gemini._send_message message (g, env) in
               (r, (GeminiE g', env'))) = (r, (GeminiE g', env'))
              ∧ Gemini.conversation_history g' = exchanges xs') as Hsend.
    { intros message. pose proof (gemini_send_exchange message g env) as [H _].
      destruct (Gemini._send_message message (g, env)) as [[answer|err] [g' env']].
      - eexists _, _, _, (xs ++ [(message, answer)])%list. split; [reflexivity|].
        by rewrite exchanges_snoc, H, Hh.
      - eexists _, _, _, xs. split; [reflexivity|]. by rewrite H. }
    destruct input as [s|]; [destruct (str_truthy s)|]; apply Hsend.
  - unfold Gemini.end_interview.
    unfold bind at 1, on_self at 1, zoom at 1, get at 1. cbn [fst snd].
    destruct (Gemini.chat g) as [c|].
    2:{ unfold ret. by eexists _, _, _, xs. }
    pose proof (gemini_send_exchange Gemini.closing_prompt g env) as [H _].
    unfold bind, ret.
    destruct (Gemini._send_message Gemini.closing_prompt (g, env)) as [[answer|err] [g' env']].
    + eexists _, _, _, (xs ++ [(Gemini.closing_prompt, answer)])%list.
      split; [reflexivity|]. by rewrite exchanges_snoc, H, Hh.
    + eexists _, _, _, xs. split; [reflexivity|]. by rewrite H.
Qed.

(** X2.  The history of a Gemini engine is made of whole exchanges: from
    an empty history, after any calls of the three operations, whether
    they return or raise, it is a sequence of pairs, a message sent and
    the answer to it.  A request that fails leaves no trace, so the
    summary counts as many messages of the student as of the interviewer
    and twice as many in total. *)
Theorem gemini_history_in_pairs (cs : list EngineCall) (g : Gemini.t) (env : Env) :
  Gemini.conversation_history g = [] →
  ∃ xs,
    conversation_history (engine_calls cs (GeminiE g, env)).1 = exchanges xs
    ∧ let s := get_conversation_summary (engine_calls cs (GeminiE g, env)).1 in
      student_messages s = length xs
      ∧ ai_messages s = length xs
      ∧ total_messages s = 2 * length xs.
Proof.
  intros Hh.
  assert (∃ xs g' env', engine_calls cs (GeminiE g, env) = (GeminiE g', env')
                        ∧ Gemini.conversation_history g' = exchanges xs)
    as (xs & g' & env' & -> & Hxs).
  { assert (Gemini.conversation_history g = exchanges []) as H0 by done.
    clear Hh. revert g env H0. generalize (@nil (string * string)).
    induction cs as [|c cs IH]; intros xs g env Hxs.
    - by exists xs, g, env.
    - destruct (gemini_call_exchanges c g env xs Hxs) as (g' & env' & r & xs' & Hc & Hxs').
      unfold engine_calls in *. simpl. rewrite Hc. simpl. by eapply IH. }
  exists xs. cbn [fst conversation_history get_conversation_summary].
  rewrite Hxs. split; [done|].
  unfold Gemini.get_conversation_summary, summary_of. rewrite Hxs.
  cbn [student_messages ai_messages total_messages].
  pose proof (with_role_exchanges_user xs) as Hu.
  pose proof (with_role_exchanges_assistant xs) as Ha.
  unfold said_by in *.
  apply (f_equal length) in Hu, Ha. rewrite !length_fmap in Hu, Ha.
  rewrite Hu, Ha. repeat split.
  clear. induction xs as [|[u a] xs IH]; [done|]. rewrite exchanges_cons. simpl. rewrite IH. lia.
Qed.

Lemma gemini_history_in_pairs_witness :
  let g := Gemini.mk "g-key" None [] EmptyString in
  let env := mkEnv ∅ true true all_up 0 in
  let cs := [Respond (Some "too early"); Initialize ["Q1"] None; Respond (Some "A1"); End] in
  Gemini.conversation_history g = []
  ∧ ∃ xs,
      conversation_history (engine_calls cs (GeminiE g, env)).1 = exchanges xs
      ∧ let s := get_conversation_summary (engine_calls cs (GeminiE g, env)).1 in
        student_messages s = length xs
        ∧ ai_messages s = length xs
        ∧ total_messages s = 2 * length xs.
Proof.
  split; [reflexivity|].
  exact (gemini_history_in_pairs _ (Gemini.mk "g-key" None [] EmptyString)
           (mkEnv ∅ true true all_up 0) eq_refl).
Defined.

(** ** A Gemini engine before [initialize_interview] *)

Lemma gemini_constructed (key : option string) (env0 env1 : Env) (g : Gemini.t) :
  Gemini.__init__ key env0 = (Ok g, env1) →
  Gemini.chat g = None ∧ Gemini.conversation_history g = []
  ∧ Some (Gemini.api_key g) = py_or key (os_getenv env0 "GEMINI_API_KEY").
Proof.
  unfold Gemini.__init__. run. intros H.
  repeat case_match; simplify_eq/=; done.
Qed.

(** X3.  A Gemini engine that its constructor has just returned has no
    chat.  On it [get_ai_response] raises "Interview not initialized",
    whatever the student said, and [end_interview] returns a fixed
    sentence; neither sends anything to the provider and neither changes
    the engine. *)
Theorem gemini_before_initialize (key input : option string) (env0 env1 env : Env)
    (g : Gemini.t) :
  Gemini.__init__ key env0 = (Ok g, env1) →
  get_ai_response input (GeminiE g, env)
  = (Raise "Interview not initialized. Call initialize_interview first.", (GeminiE g, env))
  ∧ end_interview (GeminiE g, env) = (Ok "Thank you for your time.", (GeminiE g, env)).
Proof.
  intros Hinit. destruct (gemini_constructed _ _ _ _ Hinit) as (Hchat & _ & _).
  unfold get_ai_response, end_interview, dispatch,
    Gemini.get_ai_response, Gemini.end_interview. cbn [fst snd].
  unfold bind, on_self, zoom, get. cbn [fst snd]. by rewrite Hchat.
Qed.

Lemma gemini_before_initialize_witness :
  let env0 := mkEnv {["GEMINI_API_KEY" := "g-key"]} true true all_up 0 in
  let g := Gemini.mk "g-key" None [] EmptyString in
  Gemini.__init__ None env0 = (Ok g, count_call env0)
  ∧ get_ai_response (Some "hello") (GeminiE g, count_call env0)
    = (Raise "Interview not initialized. Call initialize_interview first.",
       (GeminiE g, count_call env0))
  ∧ end_interview (GeminiE g, count_call env0)
    = (Ok "Thank you for your time.", (GeminiE g, count_call env0)).
Proof.
  split; [reflexivity|].
  exact (gemini_before_initialize None (Some "hello")
           (mkEnv {["GEMINI_API_KEY" := "g-key"]} true true all_up 0) _ _ _ eq_refl).
Defined.

(** ** The history of the scripted engine *)

Lemma with_role_app (r : string) (h1 h2 : list Message) :
  with_role r (h1 ++ h2) = (with_role r h1 ++ with_role r h2)%list.
Proof. unfold with_role. apply filter_app. Qed.

Lemma said_by_app (r : string) (h1 h2 : list Message) :
  said_by r (h1 ++ h2) = (said_by r h1 ++ said_by r h2)%list.
Proof. unfold said_by. by rewrite with_role_app, fmap_app. Qed.

Lemma respond_all_state (inputs : list (option string)) (qs : list string)
    (i : nat) (h : list Message) :
  ∃ d, (respond_all inputs (Mock.mk qs i h)).2
       = Mock.mk qs (i + length inputs `min` (length qs - i)) (h ++ d)
     ∧ said_by "assistant" d = take (length inputs) (drop i qs)
     ∧ said_by "user" d = spoken inputs.
Proof.
  revert i h. induction inputs as [|input inputs IH]; intros i h.
  { exists []. simpl. by rewrite Nat.add_0_r, app_nil_r. }
  cbn [respond_all].
  assert (∃ u, spoken (input :: inputs) = (u ++ spoken inputs)%list
               ∧ (∀ h0, (match input with
                         | Some s => if str_truthy s then modify (Mock.history_append "user" s)
                                     else ret tt
                         | None => ret tt
                         end) (Mock.mk qs i h0)
                        = (Ok tt, Mock.mk qs i (h0 ++ (mkMessage "user" <$> u))))
               ∧ said_by "user" (mkMessage "user" <$> u) = u
               ∧ said_by "assistant" (mkMessage "user" <$> u) = []) as (u & Hu & Hstep & Huu & Hua).
  { destruct input as [s|]; [destruct (str_truthy s) eqn:Hs|].
    - exists [s]. unfold spoken. simpl. rewrite Hs. by repeat split.
    - exists []. unfold spoken. simpl. rewrite Hs. repeat split. intros h0.
      by rewrite app_nil_r.
    - exists []. repeat split. intros h0. by rewrite app_nil_r. }
  unfold Mock.get_ai_response. unfold bind at 1. rewrite Hstep.
  unfold bind at 1, get at 1.
  cbn [Mock.current_question_index Mock.questions].
  destruct (decide (i < length qs)) as [Hlt|Hge].
  - destruct (lookup_lt_is_Some_2 qs i Hlt) as [q Hq]. rewrite Hq.
    unfold bind, modify, ret. cbn [Mock.set_current_question_index Mock.history_append
      Mock.questions Mock.current_question_index Mock.conversation_history].
    destruct (IH (i + 1) ((h ++ (mkMessage "user" <$> u))
                          ++ [mkMessage "assistant" q])%list) as (d & Hd & Hda & Hdu).
    destruct (respond_all inputs _) as [rs m']. simpl in Hd. subst m'. cbn [snd].
    exists ((mkMessage "user" <$> u) ++ [mkMessage "assistant" q] ++ d)%list.
    split; [|split].
    + f_equal; [cbn [length]; lia|]. by rewrite <-!(assoc_L (++)).
    + rewrite !said_by_app, Hua, Hda. simpl.
      rewrite (drop_S _ _ _ Hq). simpl. by rewrite Nat.add_1_r.
    + rewrite !said_by_app, Huu, Hdu, Hu. simpl. done.
  - unfold ret.
    destruct (IH i (h ++ (mkMessage "user" <$> u))%list) as (d & Hd & Hda & Hdu).
    destruct (respond_all inputs _) as [rs m']. simpl in Hd. subst m'. cbn [snd].
    exists ((mkMessage "user" <$> u) ++ d)%list.
    split; [|split].
    + f_equal; [cbn [length]; lia|]. by rewrite <-!(assoc_L (++)).
    + rewrite !said_by_app, Hua, Hda. simpl. by rewrite !drop_ge, !take_nil by lia.
    + by rewrite !said_by_app, Huu, Hdu, Hu.
Qed.

(** X4.  What a scripted engine records.  After [initialize_interview]
    with the questions [qs] and any number of [get_ai_response] calls, the
    cursor is the number of calls, capped at the number of questions, and
    the history is the old history, the greeting, and then messages that
    are, on the side of the interviewer, exactly the questions asked so
    far in their order, and on the side of the student, exactly the
    responses that were not empty.  The concluding sentence that the calls
    past the last question return is never recorded. *)
Theorem mock_records_questions_asked (qs : list string) (context : option Dict)
    (self : Mock.t) (inputs : list (option string)) :
  let m := (respond_all inputs (Mock.initialize_interview qs context self).2).2 in
  ∃ d,
    Mock.conversation_history m
    = (Mock.conversation_history self
       ++ mkMessage "assistant" Mock.opening_message :: d)%list
    ∧ said_by "assistant" d = take (length inputs) qs
    ∧ said_by "user" d = spoken inputs
    ∧ Mock.questions m = qs
    ∧ Mock.current_question_index m = length inputs `min` length qs.
Proof.
  cbv zeta. rewrite mock_initialize_state. cbn [snd].
  destruct (respond_all_state inputs qs 0
              (Mock.conversation_history self
               ++ [mkMessage "assistant" Mock.opening_message])) as (d & -> & Hda & Hdu).
  exists d. cbn [Mock.conversation_history Mock.questions Mock.current_question_index].
  rewrite <-(assoc_L (++)). repeat split; try done. by rewrite Nat.sub_0_r.
Qed.

(** ** The system prompt of an OpenAI engine *)

Lemma openai_later_call_keeps_head (c : EngineCall) (o : OpenAI.t) (env : Env)
    (p : string) (d : list Message) :
  is_initialize c = false →
  OpenAI.conversation_history o = mkMessage "system" p :: d →
  Forall dialogue d →
  ∃ o' env' r d',
    engine_call c (OpenAIE o, env) = (r, (OpenAIE o', env'))
    ∧ OpenAI.conversation_history o' = mkMessage "system" p :: d'
    ∧ Forall dialogue d'.
Proof.
  intros Hc Hh Hd. destruct c as [qs context|input|]; [done|..];
    unfold engine_call, get_ai_response, end_interview, dispatch; cbn [fst snd].
  - destruct (openai_respond_history input o env) as (d1 & Hd1 & Heq).
    destruct (OpenAI.get_ai_response input (o, env)) as [r [o' env']]. simpl in Heq.
    eexists _, _, _, (d ++ d1)%list. split; [reflexivity|].
    rewrite Heq, Hh. split; [done|]. by apply Forall_app.
  - destruct (openai_end_history o env) as (d1 & Hd1 & Heq).
    destruct (OpenAI.end_interview (o, env)) as [r [o' env']]. simpl in Heq.
    eexists _, _, _, (d ++ d1)%list. split; [reflexivity|].
    rewrite Heq, Hh. split; [done|]. by apply Forall_app.
Qed.

(** X5.  On an OpenAI engine in any state, [initialize_interview]
    followed by any calls of the two other operations leaves a history
    whose first message is the system prompt built from the questions and
    the context of that [initialize_interview], and which has no other
    system message: what the engine held before is gone, and the prompt
    stays in front whether the calls return or raise. *)
Theorem openai_history_starts_with_prompt (qs : list string) (context : option Dict)
    (cs : list EngineCall) (o : OpenAI.t) (env : Env) :
  forallb (λ c, negb (is_initialize c)) cs = true →
  ∃ d,
    conversation_history (engine_calls (Initialize qs context :: cs) (OpenAIE o, env)).1
    = mkMessage "system" (PromptBuilder._build_system_prompt qs context) :: d
    ∧ Forall dialogue d.
Proof.
  intros Hcs. unfold engine_calls. cbn [fold_left].
  destruct (openai_initialize_history qs context o env) as (d0 & Hd0 & Hh0).
  unfold engine_call at 2, initialize_interview, dispatch. cbn [fst snd].
  destruct (OpenAI.initialize_interview qs context (o, env)) as [r [o0 env0]].
  cbn [fst snd] in *. unfold OpenAI._build_system_prompt in Hh0.
  clear o env r. revert o0 env0 d0 Hd0 Hh0.
  induction cs as [|c cs IH]; intros o env d Hd Hh.
  - exists d. by rewrite <-Hh.
  - cbn [forallb] in Hcs. apply andb_prop in Hcs as [Hc Hcs].
    apply negb_true_iff in Hc.
    destruct (openai_later_call_keeps_head c o env _ d Hc Hh Hd)
      as (o' & env' & r & d' & Hcall & Hh' & Hd').
    cbn [fold_left]. rewrite Hcall. cbn [snd]. by apply (IH Hcs o' env' d').
Qed.

Lemma openai_history_starts_with_prompt_witness :
  let o := OpenAI.mk "sk" [mkMessage "system" "old prompt"; mkMessage "user" "old"] in
  let env := mkEnv ∅ true true provider_down 0 in
  let cs := [Respond (Some "A1"); End; Respond None] in
  forallb (λ c, negb (is_initialize c)) cs = true
  ∧ ∃ d,
      conversation_history (engine_calls (Initialize ["Q1"] None :: cs) (OpenAIE o, env)).1
      = mkMessage "system" (PromptBuilder._build_system_prompt ["Q1"] None) :: d
      ∧ Forall dialogue d.
Proof.
  split; [reflexivity|].
  exact (openai_history_starts_with_prompt ["Q1"] None
           [Respond (Some "A1"); End; Respond None]
           (OpenAI.mk "sk" [mkMessage "system" "old prompt"; mkMessage "user" "old"])
           (mkEnv ∅ true true provider_down 0) eq_refl).
Defined.

(** * Further properties of the view *)

(** ** What a handler can do to the state *)

Lemma same_objects_but_refl (a : nat) (w : World) : same_objects_but a w w.
Proof. by intros b _. Qed.

#[local] Hint Resolve same_objects_but_refl : core.

Lemma call_frame {A : Type} (a : nat) (method : M (Engine * Env) A) (w : World) :
  ∃ r w', call a method w = (r, w')
          ∧ active_ai_sessions w' = active_ai_sessions w
          ∧ conversations w' = conversations w
          ∧ dom (heap w') = dom (heap w)
          ∧ same_objects_but a w w'.
Proof.
  unfold call. destruct (heap w !! a) as [e|] eqn:He.
  - destruct (method (e, env w)) as [r [e' env']]. eexists _, _.
    split; [reflexivity|]. wsimpl. repeat split.
    + apply dom_insert_lookup_L. by rewrite He.
    + intros b Hb. wsimpl. by rewrite lookup_insert_ne.
  - eexists _, _. by repeat split.
Qed.

Lemma create_frame (row : Conversation) (w : World) :
  ∃ r w', Conversation_objects_create row w = (r, w')
          ∧ active_ai_sessions w' = active_ai_sessions w
          ∧ heap w' = heap w
          ∧ match r with
            | Ok _ => conversations w' = (conversations w ++ [row])%list
            | Raise _ => conversations w' = conversations w
            end.
Proof.
  destruct (create_cases row w) as [-> | [msg ->]]; by eexists _, _.
Qed.

(** The three ways the respond action can go. *)
Lemma respond_outcomes (request : HttpRequest) (session : Session) (w : World) :
  ∃ resp w',
    _get_ai_response request session w = (Ok resp, w')
    ∧ ((status resp = HTTP_400_BAD_REQUEST ∧ w' = w)
       ∨ ∃ a s,
           active_ai_sessions w !! session_key session = Some a
           ∧ student_response request = Some s
           ∧ active_ai_sessions w' = active_ai_sessions w
           ∧ dom (heap w') = dom (heap w)
           ∧ same_objects_but a w w'
           ∧ ((∃ msg, resp = mkResponse (ErrorBody ("Failed to get AI response: " +:+ msg))
                                         HTTP_500_INTERNAL_SERVER_ERROR
                      ∧ (conversations w' = conversations w
                         ∨ conversations w' = (conversations w ++ [student_row session s])%list))
              ∨ ∃ reply, resp = mkResponse (RespondBody reply) HTTP_200_OK
                         ∧ conversations w'
                           = (conversations w
                              ++ [student_row session s; ai_row session reply])%list)).
Proof.
  unfold _get_ai_response.
  destruct (student_response request) as [s|] eqn:Hs; cbn [truthy];
    [destruct (str_truthy s) eqn:Ht|]; cbn [negb].
  2,3: by eexists _, _; split; [reflexivity|]; left.
  unfold bind at 1, get at 1.
  destruct (active_ai_sessions w !! session_key session) as [a|] eqn:Hreg.
  2: by eexists _, _; split; [reflexivity|]; left.
  unfold try_except, bind at 1.
  match goal with |- context [Conversation_objects_create ?row w] =>
    change row with (student_row session s);
    destruct (create_frame (student_row session s) w)
      as ([[]|msg] & w1 & -> & Hr1 & Hh1 & Hc1) end.
  2:{ eexists _, _. split; [reflexivity|]. right. exists a, s.
      rewrite Hr1, Hh1. repeat split; try done.
      - intros b _. by rewrite Hh1.
      - left. eexists. split; [reflexivity|]. by left. }
  unfold bind at 1.
  match goal with |- context [call a ?m w1] =>
    destruct (call_frame a m w1) as ([reply|msg] & w2 & -> & Hr2 & Hc2 & Hh2 & Hf2) end.
  2:{ eexists _, _. split; [reflexivity|]. right. exists a, s.
      rewrite Hr2, Hh2, Hr1, Hh1, Hc2, Hc1. repeat split; try done.
      - intros b Hb. rewrite (Hf2 b Hb). by rewrite Hh1.
      - left. eexists. split; [reflexivity|]. by right. }
  unfold bind at 1. change (mkConversation (session_id session) None "ai" reply)
    with (ai_row session reply).
  destruct (create_frame (ai_row session reply) w2) as ([[]|msg] & w3 & -> & Hr3 & Hh3 & Hc3);
    eexists _, _; (split; [reflexivity|]); right; exists a, s;
    rewrite Hr3, Hh3, Hh2, Hr2, Hr1, Hh1, Hc3, Hc2, Hc1;
    (repeat split; try done; [intros b Hb; rewrite Hh3, (Hf2 b Hb); by rewrite Hh1|]).
  - right. exists reply. split; [reflexivity|]. by rewrite <-(assoc_L (++)).
  - left. eexists. split; [reflexivity|]. by right.
Qed.

(** The three ways the end action can go. *)
Lemma end_outcomes (request : HttpRequest) (session : Session) (w : World) :
  ∃ resp w',
    _end_interview request session w = (Ok resp, w')
    ∧ ((status resp = HTTP_400_BAD_REQUEST ∧ w' = w)
       ∨ ∃ a,
           active_ai_sessions w !! session_key session = Some a
           ∧ dom (heap w') = dom (heap w)
           ∧ same_objects_but a w w'
           ∧ ((∃ msg, resp = mkResponse (ErrorBody ("Failed to end interview: " +:+ msg))
                                         HTTP_500_INTERNAL_SERVER_ERROR
                      ∧ active_ai_sessions w' = active_ai_sessions w
                      ∧ (conversations w' = conversations w
                         ∨ ∃ closing,
                             conversations w'
                             = (conversations w ++ [ai_row session closing])%list))
              ∨ ∃ closing summary,
                  resp = mkResponse (EndBody closing summary) HTTP_200_OK
                  ∧ active_ai_sessions w'
                    = delete (session_key session) (active_ai_sessions w)
                  ∧ conversations w' = (conversations w ++ [ai_row session closing])%list)).
Proof.
  unfold _end_interview. unfold bind at 1, get at 1.
  destruct (active_ai_sessions w !! session_key session) as [a|] eqn:Hreg.
  2: by eexists _, _; split; [reflexivity|]; left.
  unfold try_except, bind at 1.
  match goal with |- context [call a ?m w] =>
    destruct (call_frame a m w) as ([closing|msg] & w1 & -> & Hr1 & Hc1 & Hh1 & Hf1) end.
  2:{ eexists _, _. split; [reflexivity|]. right. exists a.
      rewrite Hr1, Hh1, Hc1. repeat split; try done.
      left. eexists. split; [reflexivity|]. split; [done|]. by left. }
  unfold bind at 1. change (mkConversation (session_id session) None "ai" closing)
    with (ai_row session closing).
  destruct (create_frame (ai_row session closing) w1) as ([[]|msg] & w2 & -> & Hr2 & Hh2 & Hc2).
  2:{ eexists _, _. split; [reflexivity|]. right. exists a.
      rewrite Hr2, Hh2, Hh1, Hr1, Hc2, Hc1. repeat split; try done.
      - intros b Hb. rewrite Hh2. by apply Hf1.
      - left. eexists. split; [reflexivity|]. split; [done|]. by left. }
  unfold bind at 1.
  match goal with |- context [call a ?m w2] =>
    destruct (call_frame a m w2) as ([summary|msg] & w3 & -> & Hr3 & Hc3 & Hh3 & Hf3) end.
  2:{ eexists _, _. split; [reflexivity|]. right. exists a.
      rewrite Hh3, Hr3, Hc3, Hr2, Hh2, Hh1, Hr1, Hc2, Hc1. repeat split; try done.
      - intros b Hb. rewrite (Hf3 b Hb), Hh2. by apply Hf1.
      - left. eexists. split; [reflexivity|]. split; [done|]. right. by exists closing. }
  unfold bind at 1, modify at 1, ret. eexists _, _. split; [reflexivity|]. wsimpl.
  right. exists a. rewrite Hh3, Hr3, Hc3, Hr2, Hh2, Hh1, Hr1, Hc2, Hc1.
  repeat split; try done.
  - intros b Hb. wsimpl. rewrite (Hf3 b Hb), Hh2. by apply Hf1.
  - right. by exists closing, summary.
Qed.

(** The ways the initialize action can go. *)
Lemma initialize_outcomes (request : HttpRequest) (session : Session) (w : World) :
  ∃ resp w',
    _initialize_interview request session w = (Ok resp, w')
    ∧ ((question_rows session = []
        ∧ (resp = mkResponse (ErrorBody "No questions found for this session")
                             HTTP_400_BAD_REQUEST
           ∨ ∃ msg, resp = mkResponse (ErrorBody ("Failed to initialize interview: " +:+ msg))
                                      HTTP_500_INTERNAL_SERVER_ERROR)
        ∧ w' = w)
       ∨ (question_rows session ≠ []
          ∧ dom (heap w') = {[new_address w]} ∪ dom (heap w)
          ∧ same_objects_but (new_address w) w w'
          ∧ ((∃ msg, resp = mkResponse (ErrorBody ("Failed to initialize interview: " +:+ msg))
                                        HTTP_500_INTERNAL_SERVER_ERROR
                     ∧ ((active_ai_sessions w' = active_ai_sessions w
                         ∧ conversations w' = conversations w)
                        ∨ (active_ai_sessions w'
                           = <[session_key session := new_address w]> (active_ai_sessions w)
                           ∧ (conversations w' = conversations w
                              ∨ ∃ opening,
                                  conversations w'
                                  = (conversations w ++ [ai_row session opening])%list))))
             ∨ ∃ opening first question,
                 resp = mkResponse (InitializeBody opening first) HTTP_200_OK
                 ∧ active_ai_sessions w'
                   = <[session_key session := new_address w]> (active_ai_sessions w)
                 ∧ conversations w'
                   = (conversations w
                      ++ [ai_row session opening;
                          first_question_row session question first])%list
                 ∧ questions_first session = Ok question))).
Proof.
  unfold _initialize_interview, try_except, question_rows. rewrite bind_fetch.
  destruct (questions_by_order session) as [[|q rows]|msg];
    cbn [map nonempty negb]; rewrite ?bind_fetch.
  { unfold ret. eexists _, _. split; [reflexivity|]. left.
    split; [by destruct (student session)|]. split; [by left|done]. }
  2:{ unfold ret. eexists _, _. split; [reflexivity|]. left.
      split; [done|]. split; [right; by exists msg|done]. }
  destruct (student session) as [name|msg].
  2:{ unfold ret. eexists _, _. split; [reflexivity|]. left.
      split; [done|]. split; [right; by exists msg|done]. }
  unfold bind at 1. rewrite select_interviewer_first_candidate.
  destruct (first_candidate (env w)) as [e0 env1]. cbn [fst snd].
  set (a := new_address w).
  unfold bind at 1.
  match goal with |- context [call _ ?m _] =>
    destruct (m (e0, env1)) as [[opening|msg] [e1 env1']] eqn:Hinit end;
    (erewrite call_live; [| apply lookup_insert_eq | exact Hinit ]); wsimpl.
  2:{ unfold ret. eexists _, _. split; [reflexivity|]. right. wsimpl.
      split; [done|]. split; [by rewrite ?insert_insert_eq, dom_insert_L|].
      split; [intros b Hb; wsimpl; by rewrite !lookup_insert_ne|].
      left. eexists. split; [reflexivity|]. by left. }
  unfold bind at 1, modify at 1. wsimpl.
  unfold bind at 1.
  change (mkConversation (session_id session) None "ai" opening) with (ai_row session opening).
  match goal with |- context [Conversation_objects_create ?row ?w1] =>
    destruct (create_cases row w1) as [-> | [msg ->]] end; wsimpl.
  2:{ unfold ret. eexists _, _. split; [reflexivity|]. right. wsimpl.
      split; [done|]. split; [by rewrite ?insert_insert_eq, dom_insert_L|].
      split; [intros b Hb; wsimpl; by rewrite !lookup_insert_ne|].
      left. eexists. split; [reflexivity|]. right. split; [done|]. by left. }
  unfold bind at 1.
  match goal with |- context [call _ ?m _] =>
    destruct (m (e1, count_call env1')) as [[first|msg] [e2 env2]] eqn:Hfirst end;
    (erewrite call_live; [| apply lookup_insert_eq | exact Hfirst ]); wsimpl.
  2:{ unfold ret. eexists _, _. split; [reflexivity|]. right. wsimpl.
      split; [done|]. split; [by rewrite ?insert_insert_eq, dom_insert_L|].
      split; [intros b Hb; wsimpl; by rewrite !lookup_insert_ne|].
      left. eexists. split; [reflexivity|]. right. split; [done|]. right. by exists opening. }
  rewrite bind_fetch.
  destruct (questions_first session) as [question|msg].
  2:{ unfold ret. eexists _, _. split; [reflexivity|]. right. wsimpl.
      split; [done|]. split; [by rewrite ?insert_insert_eq, dom_insert_L|].
      split; [intros b Hb; wsimpl; by rewrite !lookup_insert_ne|].
      left. eexists. split; [reflexivity|]. right. split; [done|]. right. by exists opening. }
  unfold bind at 1.
  match goal with |- context [Conversation_objects_create ?row ?w1] =>
    destruct (create_cases row w1) as [-> | [msg ->]] end; wsimpl.
  2:{ unfold ret. eexists _, _. split; [reflexivity|]. right. wsimpl.
      split; [done|]. split; [by rewrite ?insert_insert_eq, dom_insert_L|].
      split; [intros b Hb; wsimpl; by rewrite !lookup_insert_ne|].
      left. eexists. split; [reflexivity|]. right. split; [done|]. right. by exists opening. }
  unfold ret. eexists _, _. split; [reflexivity|]. right. wsimpl.
  split; [done|]. split; [by rewrite ?insert_insert_eq, dom_insert_L|].
  split; [intros b Hb; wsimpl; by rewrite !lookup_insert_ne|].
  right. exists opening, first, question. split; [done|]. split; [done|].
  unfold first_question_row. by rewrite <-(assoc_L (++)).
Qed.

(** ** Answers *)

(** X6.  Each of the three handlers always answers, whatever the engine
    and the database do: no exception leaves it.  The answer is 200; or
    400, and then the handler has changed nothing, neither the registry
    nor an engine nor the conversation table, and has sent nothing
    outside; or 500, with the message of the exception after "Failed to
    initialize interview: ", "Failed to get AI response: " or "Failed to
    end interview: ". *)
Theorem handlers_always_answer (request : HttpRequest) (session : Session) (w : World) :
  answers_with "Failed to initialize interview: " w (_initialize_interview request session w)
  ∧ answers_with "Failed to get AI response: " w (_get_ai_response request session w)
  ∧ answers_with "Failed to end interview: " w (_end_interview request session w).
Proof.
  unfold answers_with. split; [|split].
  - destruct (initialize_outcomes request session w)
      as (resp & w' & -> & [(_ & [-> | (msg & ->)] & ->)
                            | (_ & _ & _ & [(msg & -> & _) | (o & f & qn & -> & _)])]);
      eexists; (split; [reflexivity|]); cbn [fst snd status data]; eauto 6.
  - destruct (respond_outcomes request session w)
      as (resp & w' & -> & [[Hst ->] | (a & s & _ & _ & _ & _ & _ &
                                         [(msg & -> & _) | (reply & -> & _)])]);
      eexists; (split; [reflexivity|]); cbn [fst snd status data]; eauto 6.
  - destruct (end_outcomes request session w)
      as (resp & w' & -> & [[Hst ->] | (a & _ & _ & _ &
                                         [(msg & -> & _) | (c & sm & -> & _)])]);
      eexists; (split; [reflexivity|]); cbn [fst snd status data]; eauto 6.
Qed.

(** ** The conversation table *)

Lemma row_of_student (session : Session) (s : string) : row_of session (student_row session s).
Proof. split; [done|]. by right. Qed.

Lemma row_of_ai (session : Session) (s : string) : row_of session (ai_row session s).
Proof. split; [done|]. by left. Qed.

Lemma row_of_first_question (session : Session) (question : option Question) (s : string) :
  row_of session (first_question_row session question s).
Proof. split; [done|]. by left. Qed.

#[local] Hint Resolve row_of_student row_of_ai row_of_first_question : core.

Lemma appends_none (session : Session) (w w' : World) :
  conversations w' = conversations w → appends_rows session w w'.
Proof.
  intros H. exists []. rewrite app_nil_r. split; [done|]. split; [simpl; lia|constructor].
Qed.

Lemma appends_one (session : Session) (w w' : World) (row : Conversation) :
  conversations w' = (conversations w ++ [row])%list → row_of session row →
  appends_rows session w w'.
Proof.
  intros H Hrow. exists [row]. split; [done|]. split; [simpl; lia|].
  apply Forall_cons_2; [done|constructor].
Qed.

Lemma appends_two (session : Session) (w w' : World) (row1 row2 : Conversation) :
  conversations w' = (conversations w ++ [row1; row2])%list →
  row_of session row1 → row_of session row2 →
  appends_rows session w w'.
Proof.
  intros H Hrow1 Hrow2. exists [row1; row2]. split; [done|]. split; [simpl; lia|].
  repeat (apply Forall_cons_2; [done|]). constructor.
Qed.

(** X7.  The conversation table only grows, and by little: a handler
    leaves the rows that were there in their place and order and adds at
    most two rows after them, each for the session it serves and said by
    ['ai'] or ['student'].  No handler rewrites or removes a row, also
    when it answers 500. *)
Theorem transcript_append_only (request : HttpRequest) (session : Session) (w : World) :
  appends_rows session w (_initialize_interview request session w).2
  ∧ appends_rows session w (_get_ai_response request session w).2
  ∧ appends_rows session w (_end_interview request session w).2.
Proof.
  split; [|split].
  - destruct (initialize_outcomes request session w)
      as (resp & w' & -> & [(_ & _ & ->)
                            | (_ & _ & _ & [(msg & _ & H) | (o & f & qn & _ & _ & H & _)])]);
      cbn [snd].
    + by apply appends_none.
    + destruct H as [[_ H] | [_ [H | [opening H]]]].
      * by apply appends_none.
      * by apply appends_none.
      * by eapply appends_one.
    + by eapply appends_two.
  - destruct (respond_outcomes request session w)
      as (resp & w' & -> & [[Hst ->] | (a & s & _ & _ & _ & _ & _ &
                                         [(msg & _ & [H|H]) | (reply & _ & H)])]);
      cbn [snd].
    + by apply appends_none.
    + by apply appends_none.
    + by eapply appends_one.
    + by eapply appends_two.
  - destruct (end_outcomes request session w)
      as (resp & w' & -> & [[Hst ->] | (a & _ & _ & _ &
                                         [(msg & _ & _ & [H | [c H]]) | (c & sm & _ & _ & H)])]);
      cbn [snd].
    + by apply appends_none.
    + by apply appends_none.
    + by eapply appends_one.
    + by eapply appends_one.
Qed.

(** ** Sessions do not touch each other *)

(** X8.  In a world whose registry is in order, a handler that serves
    one session leaves every other session alone: a session with another
    key keeps its engine, and that engine object is exactly as it was. *)
Theorem other_sessions_untouched (request : HttpRequest) (session : Session) (w : World)
    (k : string) (b : nat) :
  registry_ok w →
  k ≠ session_key session →
  active_ai_sessions w !! k = Some b →
  ∀ w', w' = (_initialize_interview request session w).2
        ∨ w' = (_get_ai_response request session w).2
        ∨ w' = (_end_interview request session w).2 →
        active_ai_sessions w' !! k = Some b ∧ heap w' !! b = heap w !! b.
Proof.
  intros [Hlive Hinj] Hk Hb w' [-> | [-> | ->]].
  - destruct (initialize_outcomes request session w)
      as (resp & w' & -> & [(_ & _ & ->) | (_ & _ & Hf & H)]); cbn [snd]; [done|].
    assert (b ≠ new_address w) as Hne.
    { intros ->. apply (new_address_not_in_dom w). by eapply Hlive. }
    split; [|by apply Hf].
    destruct H as [(msg & _ & [[-> _] | [-> _]]) | (o & f & qn & _ & -> & _)];
      by rewrite ?lookup_insert_ne.
  - destruct (respond_outcomes request session w)
      as (resp & w' & -> & [[_ ->] | (a & s & Ha & _ & Hr & _ & Hf & _)]); cbn [snd]; [done|].
    rewrite Hr. split; [done|]. apply Hf. intros ->. apply Hk. by eapply Hinj.
  - destruct (end_outcomes request session w)
      as (resp & w' & -> & [[_ ->] | (a & Ha & _ & Hf & H)]); cbn [snd]; [done|].
    split.
    + destruct H as [(msg & _ & -> & _) | (c & sm & _ & -> & _)]; [done|].
      by rewrite lookup_delete_ne.
    + apply Hf. intros ->. apply Hk. by eapply Hinj.
Qed.

(** ** Initializing, when something fails *)

Lemma initialize_steps (request : HttpRequest) (session : Session) (w : World) :
  question_rows session ≠ [] →
  _initialize_interview request session w
  = try_except
      (opening_message <- call (new_address w)
                               (initialize_interview (question_text <$> question_rows session)
                                                     (Some (session_context session))) ;;
       modify (λ w0, set_active_ai_sessions
                       (<[session_key session := new_address w]> (active_ai_sessions w0)) w0) ;;;
       Conversation_objects_create (ai_row session opening_message) ;;;
       first_question <-
         call (new_address w) (get_ai_response (Some "Please ask the first question.")) ;;
       question <- fetch (questions_first session) ;;
       Conversation_objects_create (first_question_row session question first_question) ;;;
       ret (mkResponse (InitializeBody opening_message first_question) HTTP_200_OK))
      (λ e, ret (mkResponse (ErrorBody ("Failed to initialize interview: " +:+ e))
                            HTTP_500_INTERNAL_SERVER_ERROR))
      (set_heap (<[new_address w := (first_candidate (env w)).1]> (heap w))
                (set_env (first_candidate (env w)).2 w)).
Proof.
  intros Hq. destruct (question_rows_read session Hq) as [Hrows Hstudent].
  unfold _initialize_interview, try_except.
  rewrite bind_fetch, Hrows.
  destruct (question_rows session) as [|q rows]; [done|].
  cbn [map nonempty negb]. rewrite bind_fetch, Hstudent. unfold bind at 1.
  by rewrite select_interviewer_first_candidate.
Qed.

(** X9.  When the session has questions (the view has read them, and
    the student) and the first operation on the
    selected engine, the greeting, raises, the initialize action answers
    500 with that error.  The engine it built is not registered and no
    row is written: the session is as it was for the respond and end
    actions. *)
Theorem initialize_greeting_failure (request : HttpRequest) (session : Session) (w : World)
    (msg : string) (e1 : Engine) (env1 : Env) :
  question_rows session ≠ [] →
  greeting session w = (Raise msg, (e1, env1)) →
  ∃ w', _initialize_interview request session w
        = (Ok (mkResponse (ErrorBody ("Failed to initialize interview: " +:+ msg))
                          HTTP_500_INTERNAL_SERVER_ERROR), w')
      ∧ active_ai_sessions w' = active_ai_sessions w
      ∧ conversations w' = conversations w
      ∧ heap w' = <[new_address w := e1]> (heap w).
Proof.
  intros Hq Hgreet. rewrite initialize_steps by done. unfold greeting in Hgreet.
  destruct (first_candidate (env w)) as [e0 env0]. cbn [fst snd].
  unfold try_except, bind at 1.
  erewrite call_live; [| apply lookup_insert_eq | exact Hgreet ]. wsimpl.
  unfold ret. eexists. split; [reflexivity|]. wsimpl.
  by rewrite insert_insert_eq.
Qed.

(** X10.  The engine is registered before the greeting is saved.  When
    the session has questions (the view has read them, and the student),
    the greeting is returned and the database refuses its row, the
    initialize action answers 500 and has written nothing, but the session
    is in the registry with the new engine, which has given its greeting:
    the respond and end actions will find it. *)
Theorem initialize_registers_before_saving (request : HttpRequest) (session : Session)
    (w : World) (opening err : string) (e1 : Engine) (env1 : Env) :
  question_rows session ≠ [] →
  greeting session w = (Ok opening, (e1, env1)) →
  outside env1 (calls env1) (ConversationInsert (ai_row session opening)) = Fails err →
  ∃ w', _initialize_interview request session w
        = (Ok (mkResponse (ErrorBody ("Failed to initialize interview: " +:+ err))
                          HTTP_500_INTERNAL_SERVER_ERROR), w')
      ∧ active_ai_sessions w' !! session_key session = Some (new_address w)
      ∧ heap w' !! new_address w = Some e1
      ∧ conversations w' = conversations w.
Proof.
  intros Hq Hgreet Hdb. rewrite initialize_steps by done. unfold greeting in Hgreet.
  destruct (first_candidate (env w)) as [e0 env0]. cbn [fst snd].
  unfold try_except, bind at 1.
  erewrite call_live; [| apply lookup_insert_eq | exact Hgreet ]. wsimpl.
  unfold bind at 1, modify at 1. wsimpl.
  unfold bind at 1. rewrite (create_refused _ _ err) by done. wsimpl.
  unfold ret. eexists. split; [reflexivity|]. wsimpl.
  by rewrite !lookup_insert_eq.
Qed.

(** ** Responding, when everything works, and retrying *)

(** The world after a respond action that went through. *)
Lemma respond_returns (request : HttpRequest) (session : Session) (w : World)
    (a : nat) (e e' : Engine) (s reply text1 text2 : string) (env' : Env) :
  student_response request = Some s →
  str_truthy s = true →
  active_ai_sessions w !! session_key session = Some a →
  heap w !! a = Some e →
  outside (env w) (calls (env w)) (ConversationInsert (student_row session s)) = Returns text1 →
  get_ai_response (Some s) (e, count_call (env w)) = (Ok reply, (e', env')) →
  outside env' (calls env') (ConversationInsert (ai_row session reply)) = Returns text2 →
  _get_ai_response request session w
  = (Ok (mkResponse (RespondBody reply) HTTP_200_OK),
     mkWorld (<[a := e']> (heap w)) (active_ai_sessions w) (session_table w)
             (conversations w ++ [student_row session s; ai_row session reply])
             (count_call env')).
Proof.
  intros Hs Ht Hreg Hheap Hdb1 Hreply Hdb2.
  rewrite (respond_steps _ _ _ a s) by done.
  unfold try_except, bind at 1. rewrite (create_accepted _ _ text1) by done.
  unfold bind at 1. erewrite call_live; [| exact Hheap | exact Hreply ]. wsimpl.
  unfold bind at 1. rewrite (create_accepted _ _ text2) by done. wsimpl.
  unfold ret, set_conversations, set_env, set_heap. wsimpl.
  by rewrite <-(assoc_L (++)).
Qed.

(** The world after a respond action whose engine call raised. *)
Lemma respond_engine_raises (request : HttpRequest) (session : Session) (w : World)
    (a : nat) (e e' : Engine) (s msg text1 : string) (env' : Env) :
  student_response request = Some s →
  str_truthy s = true →
  active_ai_sessions w !! session_key session = Some a →
  heap w !! a = Some e →
  outside (env w) (calls (env w)) (ConversationInsert (student_row session s)) = Returns text1 →
  get_ai_response (Some s) (e, count_call (env w)) = (Raise msg, (e', env')) →
  _get_ai_response request session w
  = (Ok (mkResponse (ErrorBody ("Failed to get AI response: " +:+ msg))
                    HTTP_500_INTERNAL_SERVER_ERROR),
     mkWorld (<[a := e']> (heap w)) (active_ai_sessions w) (session_table w)
             (conversations w ++ [student_row session s]) env').
Proof.
  intros Hs Ht Hreg Hheap Hdb1 Hraise.
  rewrite (respond_steps _ _ _ a s) by done.
  unfold try_except, bind at 1. rewrite (create_accepted _ _ text1) by done.
  unfold bind at 1. erewrite call_live; [| exact Hheap | exact Hraise ]. by wsimpl.
Qed.

(** X11.  On a session that has an engine, when the database takes both
    rows and the engine returns a reply, the respond action answers 200
    with that reply and adds two rows to the conversation table, the
    response of the student and then the reply of the interviewer.  The
    engine is the same object, in the state the call left it in, and the
    registry is unchanged. *)
Theorem respond_adds_two_rows (request : HttpRequest) (session : Session) (w : World)
    (a : nat) (e e' : Engine) (s reply text1 text2 : string) (env' : Env) :
  student_response request = Some s →
  str_truthy s = true →
  active_ai_sessions w !! session_key session = Some a →
  heap w !! a = Some e →
  outside (env w) (calls (env w)) (ConversationInsert (student_row session s)) = Returns text1 →
  get_ai_response (Some s) (e, count_call (env w)) = (Ok reply, (e', env')) →
  outside env' (calls env') (ConversationInsert (ai_row session reply)) = Returns text2 →
  ∃ w', _get_ai_response request session w
        = (Ok (mkResponse (RespondBody reply) HTTP_200_OK), w')
      ∧ conversations w'
        = (conversations w ++ [student_row session s; ai_row session reply])%list
      ∧ active_ai_sessions w' = active_ai_sessions w
      ∧ heap w' !! a = Some e'.
Proof.
  intros Hs Ht Hreg Hheap Hdb1 Hreply Hdb2.
  erewrite respond_returns by done. eexists. split; [reflexivity|]. wsimpl.
  repeat split. apply lookup_insert_eq.
Qed.

(** X12.  Nothing is undone when the provider fails, so a retry repeats
    the student.  On a session served by an OpenAI engine, with a database
    that takes every row: when the chat completion of a respond action
    fails, and the same request is sent again and the completion then
    succeeds, the first answer is 500 and the second 200; the conversation
    table has the response of the student twice before the reply, and so
    has the history of the engine, which is what the second completion
    was asked with. *)
Theorem respond_retry_repeats_student (request : HttpRequest) (session : Session)
    (w : World) (a : nat) (o : OpenAI.t) (s err reply : string) :
  student_response request = Some s →
  str_truthy s = true →
  active_ai_sessions w !! session_key session = Some a →
  heap w !! a = Some (OpenAIE o) →
  database_up (env w) →
  let h := OpenAI.conversation_history o in
  let n := calls (env w) in
  outside (env w) (n + 1) (ChatCompletionsCreate (h ++ [mkMessage "user" s])) = Fails err →
  outside (env w) (n + 3)
          (ChatCompletionsCreate (h ++ [mkMessage "user" s; mkMessage "user" s]))
  = Returns reply →
  let r1 := _get_ai_response request session w in
  let r2 := _get_ai_response request session r1.2 in
  r1.1 = Ok (mkResponse (ErrorBody ("Failed to get AI response: "
                                    +:+ "AI service error: " +:+ err))
                        HTTP_500_INTERNAL_SERVER_ERROR)
  ∧ r2.1 = Ok (mkResponse (RespondBody reply) HTTP_200_OK)
  ∧ conversations r2.2
    = (conversations w
       ++ [student_row session s; student_row session s; ai_row session reply])%list
  ∧ (conversation_history <$> heap r2.2 !! a)
    = Some (h ++ [mkMessage "user" s; mkMessage "user" s; mkMessage "assistant" reply])%list.
Proof.
  intros Hs Ht Hreg Hheap Hdb h n Hfail Hok r1 r2. subst r1 r2 h n.
  destruct o as [k h]. cbn [OpenAI.conversation_history] in *.
  destruct (Hdb (calls (env w)) (student_row session s)) as [t1 Ht1].
  erewrite (respond_engine_raises request session w a _ _ s _ t1); try done.
  2:{ unfold get_ai_response, dispatch, OpenAI.get_ai_response. cbn [fst snd]. rewrite Ht.
      run. rewrite Nat.add_1_r in Hfail. rewrite Hfail. reflexivity. }
  cbn [fst snd].
  destruct (Hdb (calls (env w) + 2) (student_row session s)) as [t2 Ht2].
  destruct (Hdb (calls (env w) + 4) (ai_row session reply)) as [t3 Ht3].
  erewrite (respond_returns request session _ a _ _ s reply t2 t3); try done; cycle 1.
  - wsimpl. apply lookup_insert_eq.
  - wsimpl. cbn [calls count_call outside].
    replace (S (S (calls (env w)))) with (calls (env w) + 2) by lia. exact Ht2.
  - wsimpl. unfold get_ai_response, dispatch, OpenAI.get_ai_response. cbn [fst snd].
    rewrite Ht. run.
    replace (S (S (S (calls (env w))))) with (calls (env w) + 3) by lia.
    rewrite <-(assoc_L (++)). cbn [app]. rewrite Hok. reflexivity.
  - cbn [calls count_call outside fst snd].
    replace (S (S (S (S (calls (env w)))))) with (calls (env w) + 4) by lia. exact Ht3.
  - cbn [fst snd conversations heap]. repeat split.
    + by rewrite <-(assoc_L (++)).
    + rewrite lookup_insert_eq. cbn [fmap option_fmap option_map conversation_history
        OpenAI.conversation_history OpenAI.history_append].
      by rewrite <-!(assoc_L (++)).
Qed.

(** ** A whole interview on the scripted engine *)

Lemma scripted_rows_cons (session : Session) (qs : list string) (first : nat)
    (s : string) (answers : list string) :
  scripted_rows session qs first (s :: answers)
  = student_row session s :: ai_row session (nth first qs Mock.concluding_sentence)
      :: scripted_rows session qs (S first) answers.
Proof.
  unfold scripted_rows. rewrite imap_cons. cbn [mjoin list_join app].
  rewrite Nat.add_0_r. do 3 f_equal. apply imap_ext. intros j x _. simpl.
  by rewrite Nat.add_succ_r.
Qed.

(** The respond actions of the view drive the scripted engine like
    successive calls of its [get_ai_response]. *)
Lemma respond_each_mock (session : Session) (a : nat) (qs : list string)
    (answers : list string) (w : World) (i : nat) (h : list Message) :
  active_ai_sessions w !! session_key session = Some a →
  heap w !! a = Some (MockE (Mock.mk qs i h)) →
  database_up (env w) →
  Forall (λ s, str_truthy s = true) answers →
  let w' := respond_each answers session w in
  active_ai_sessions w' = active_ai_sessions w
  ∧ heap w' !! a = Some (MockE (respond_all (Some <$> answers) (Mock.mk qs i h)).2)
  ∧ database_up (env w')
  ∧ conversations w' = (conversations w ++ scripted_rows session qs i answers)%list.
Proof.
  intros Hreg Hheap Hdb Hans. revert w i h Hreg Hheap Hdb.
  induction Hans as [|s answers Hs _ IH]; intros w i h Hreg Hheap Hdb.
  { cbn. rewrite app_nil_r. by repeat split. }
  cbn [respond_each fmap list_fmap respond_all].
  assert (∃ h', Mock.get_ai_response (Some s) (Mock.mk qs i h)
                = (Ok (nth i qs Mock.concluding_sentence),
                   Mock.mk qs (if decide (i < length qs) then S i else i) h'))
    as [h' Hstep].
  { destruct (qs !! i) as [q|] eqn:Hq.
    - destruct (mock_respond_question (Some s) (Mock.mk qs i h) q Hq) as [h' ->].
      exists h'. cbn [Mock.questions Mock.current_question_index].
      rewrite (nth_lookup_Some _ _ _ _ Hq).
      by rewrite decide_True by by eapply lookup_lt_Some.
    - apply lookup_ge_None in Hq.
      destruct (mock_respond_exhausted (Some s) (Mock.mk qs i h) Hq) as [h' ->].
      exists h'. cbn [Mock.questions Mock.current_question_index].
      rewrite nth_overflow by done. by rewrite decide_False by lia. }
  rewrite Hstep.
  destruct (Hdb (calls (env w)) (student_row session s)) as [t1 Ht1].
  destruct (Hdb (S (calls (env w)))
                (ai_row session (nth i qs Mock.concluding_sentence))) as [t2 Ht2].
  erewrite (respond_returns (respond_with session s) session w a _ _ s _ t1 t2);
    try done; cycle 1.
  - unfold get_ai_response, dispatch. cbn [fst snd]. by rewrite Hstep.
  - exact Ht2.
  - cbn [snd].
    match goal with |- context [respond_each answers session ?w1] =>
      destruct (IH w1 (if decide (i < length qs) then S i else i) h')
        as (Hreg' & Hheap' & Hdb' & Hconv') end.
    + done.
    + wsimpl. apply lookup_insert_eq.
    + done.
    + rewrite Hreg', Hheap', Hconv'. wsimpl. repeat split; try done.
      * by destruct (respond_all _ _).
      * rewrite scripted_rows_cons, <-(assoc_L (++)). cbn [app]. do 3 f_equal.
        destruct (decide (i < length qs)) as [Hlt|Hge]; [done|].
        unfold scripted_rows. f_equal. apply imap_ext. intros j x _. simpl.
        by rewrite !nth_overflow by lia.
Qed.

Lemma initialize_on_mock (request : HttpRequest) (session : Session) (w : World)
    (q : Question) (rows : list Question) (question : option Question) :
  question_rows session = q :: rows →
  questions_first session = Ok question →
  database_up (env w) →
  gemini_unusable (env w) →
  openai_unusable (try_gemini (env w)).2 →
  ∃ w1,
    _initialize_interview request session w
    = (Ok (mkResponse (InitializeBody Mock.opening_message (question_text q)) HTTP_200_OK), w1)
    ∧ active_ai_sessions w1
      = <[session_key session := new_address w]> (active_ai_sessions w)
    ∧ heap w1 !! new_address w
      = Some (MockE (Mock.mk (question_text <$> q :: rows) 1
                             [mkMessage "assistant" Mock.opening_message;
                              mkMessage "user" "Please ask the first question.";
                              mkMessage "assistant" (question_text q)]))
    ∧ database_up (env w1)
    ∧ conversations w1
      = (conversations w
         ++ [ai_row session Mock.opening_message;
             first_question_row session question (question_text q)])%list.
Proof.
  intros Hq Hfirst Hdb Hg Ho.
  destruct (first_candidate_mock (env w) Hg Ho) as [Hfc Hout].
  set (env2 := (try_openai (try_gemini (env w)).2).2) in *.
  assert (database_up env2) as Hdb2 by by eapply database_up_outside.
  rewrite initialize_steps by by rewrite Hq.
  rewrite Hfc, Hq. cbn [fst snd].
  unfold try_except, bind at 1.
  erewrite call_live; [| apply lookup_insert_eq | reflexivity ]. wsimpl.
  unfold bind at 1, modify at 1. wsimpl.
  unfold bind at 1. rewrite create_up by done. wsimpl.
  unfold bind at 1.
  erewrite call_live; [| apply lookup_insert_eq | reflexivity ]. wsimpl.
  rewrite bind_fetch, Hfirst.
  unfold bind at 1. rewrite create_up by done. wsimpl.
  unfold ret. eexists. split; [reflexivity|]. wsimpl.
  split; [done|]. split; [by rewrite lookup_insert_eq|]. split; [done|].
  by rewrite <-(assoc_L (++)).
Qed.

(** The world after an end action that went through. *)
Lemma end_returns (request : HttpRequest) (session : Session) (w : World)
    (a : nat) (e e' : Engine) (closing text : string) (env' : Env) :
  active_ai_sessions w !! session_key session = Some a →
  heap w !! a = Some e →
  end_interview (e, env w) = (Ok closing, (e', env')) →
  outside env' (calls env') (ConversationInsert (ai_row session closing)) = Returns text →
  _end_interview request session w
  = (Ok (mkResponse (EndBody closing (get_conversation_summary e')) HTTP_200_OK),
     mkWorld (<[a := e']> (heap w)) (delete (session_key session) (active_ai_sessions w))
             (session_table w) (conversations w ++ [ai_row session closing])
             (count_call env')).
Proof.
  intros Hreg Hheap Hend Hdb. rewrite (end_steps _ _ _ a) by done.
  unfold try_except, bind at 1. erewrite call_live; [| exact Hheap | exact Hend ].
  unfold bind at 1. rewrite (create_accepted _ _ text) by done. wsimpl.
  unfold bind at 1. erewrite call_live; [| apply lookup_insert_eq | reflexivity ]. wsimpl.
  unfold bind at 1, modify at 1, ret. wsimpl.
  unfold set_active_ai_sessions. wsimpl. by rewrite insert_insert_eq.
Qed.

Lemma spoken_all (answers : list string) :
  Forall (λ s, str_truthy s = true) answers → spoken (Some <$> answers) = answers.
Proof.
  unfold spoken. induction 1 as [|s answers Hs _ IH]; [done|].
  cbn [fmap list_fmap omap list_omap truthy]. rewrite Hs. cbn. by rewrite IH.
Qed.

Lemma said_by_length (r : string) (h : list Message) :
  length (with_role r h) = length (said_by r h).
Proof. unfold said_by. by rewrite length_fmap. Qed.

(** X13.  A whole interview on the scripted engine, through the view.
    Take a session of which the view has read the student and the
    questions [qs], in the order of the query by [order], no usable
    provider, and a database that takes every row and gives the first
    question of the session when it is asked for it.  The initialize
    action, then one respond action for each of the answers (none of them
    empty), then the end action leave the conversation table with, after
    what was there: the greeting; the text of the first of [qs], in a row
    linked to the [Question] that [session.questions.first()] has given,
    which is not always the question of that text; for each
    answer, the answer and then the next question, or the concluding
    sentence once the questions are used up; the closing message.  The
    end action answers 200; its summary counts one message of the student
    more than there were answers (the directive that asked for the first
    question) and, for the interviewer, the greeting, the questions asked
    and the closing message, not the concluding sentences.  The session
    is then out of the registry. *)
Theorem scripted_interview_transcript (request : HttpRequest) (session : Session)
    (w : World) (q : Question) (rows : list Question) (question : option Question)
    (answers : list string) :
  question_rows session = q :: rows →
  questions_first session = Ok question →
  database_up (env w) →
  gemini_unusable (env w) →
  openai_unusable (try_gemini (env w)).2 →
  Forall (λ s, str_truthy s = true) answers →
  let qs := question_text <$> q :: rows in
  let w1 := (_initialize_interview request session w).2 in
  let w2 := respond_each answers session w1 in
  let r3 := _end_interview request session w2 in
  conversations r3.2
  = (conversations w
     ++ [ai_row session Mock.opening_message;
         first_question_row session question (question_text q)]
     ++ scripted_rows session qs 1 answers
     ++ [ai_row session Mock.closing_message])%list
  ∧ active_ai_sessions r3.2 !! session_key session = None
  ∧ ∃ summary,
      r3.1 = Ok (mkResponse (EndBody Mock.closing_message summary) HTTP_200_OK)
      ∧ student_messages summary = S (length answers)
      ∧ ai_messages summary = 2 + S (length answers) `min` length qs.
Proof.
  intros Hq Hfirst Hdb Hg Ho Hans qs w1 w2 r3. subst r3 w2 w1.
  destruct (initialize_on_mock request session w q rows question Hq Hfirst Hdb Hg Ho)
    as (w1 & -> & Hreg1 & Hheap1 & Hdb1 & Hconv1). cbn [snd]. fold qs in Hheap1.
  set (a := new_address w) in *.
  assert (active_ai_sessions w1 !! session_key session = Some a) as Hreg1'
    by by rewrite Hreg1, lookup_insert_eq.
  destruct (respond_each_mock session a qs answers w1 _ _ Hreg1' Hheap1 Hdb1 Hans)
    as (Hreg2 & Hheap2 & Hdb2 & Hconv2).
  set (w2 := respond_each answers session w1) in *.
  destruct (respond_all_state (Some <$> answers) qs 1
              [mkMessage "assistant" Mock.opening_message;
               mkMessage "user" "Please ask the first question.";
               mkMessage "assistant" (question_text q)]) as (d & Hm & Hda & Hdu).
  rewrite Hm in Hheap2. rewrite length_fmap in *. rewrite spoken_all in Hdu by done.
  destruct (Hdb2 (calls (env w2)) (ai_row session Mock.closing_message)) as [t Ht].
  erewrite (end_returns request session w2 a _ _ Mock.closing_message t); cycle 1.
  - by rewrite Hreg2.
  - exact Hheap2.
  - reflexivity.
  - exact Ht.
  - cbn [fst snd conversations active_ai_sessions]. split; [|split].
    + rewrite Hconv2, Hconv1. by rewrite <-!(assoc_L (++)).
    + apply lookup_delete_eq.
    + eexists. split; [reflexivity|].
      cbn [get_conversation_summary Mock.get_conversation_summary
           Mock.conversation_history Mock.history_append summary_of
           student_messages ai_messages].
      rewrite !said_by_length, !said_by_app, Hda, Hdu.
      rewrite !length_app, length_take, length_drop.
      unfold qs. cbn.
      repeat case_decide; simplify_eq; cbn; rewrite ?length_fmap; lia.
Qed.

(** ** Client errors *)

(** X14.  An answer 400 or 404 of the view means that nothing happened:
    whatever the request (no session, unknown session, unknown action, no
    student response, no engine for the session, no questions), when
    [post] answers with one of these two codes, the registry, the engine
    objects, the conversation table and the world outside are exactly as
    they were before the request. *)
Theorem client_error_changes_nothing (request : HttpRequest) (w w' : World)
    (resp : Response) :
  post request w = (Ok resp, w') →
  status resp = HTTP_400_BAD_REQUEST ∨ status resp = HTTP_404_NOT_FOUND →
  w' = w.
Proof.
  unfold post. destruct (truthy (req_session_id request)); cbn [negb].
  2:{ intros [= <- <-]. done. }
  unfold bind at 1, get at 1.
  destruct (session_table w !! _) as [session|].
  2:{ intros [= <- <-]. done. }
  repeat case_decide.
  - destruct (initialize_outcomes request session w)
      as (resp0 & w0 & -> & [(_ & _ & ->)
                             | (_ & _ & _ & [(msg & -> & _) | (o & f & qn & -> & _)])]);
      intros [= <- <-] [Hst|Hst]; done.
  - destruct (respond_outcomes request session w)
      as (resp0 & w0 & -> & [[_ ->] | (a & s & _ & _ & _ & _ & _ &
                                        [(msg & -> & _) | (reply & -> & _)])]);
      intros [= <- <-] [Hst|Hst]; done.
  - destruct (end_outcomes request session w)
      as (resp0 & w0 & -> & [[_ ->] | (a & _ & _ & _ &
                                        [(msg & -> & _) | (c & sm & -> & _)])]);
      intros [= <- <-] [Hst|Hst]; done.
  - intros [= <- <-]. done.
Qed.

(** ** Requests to the provider *)

(** X15.  One operation of an engine sends at most one request to its
    provider: after the call the world outside is the one before, or the
    one before with one request more.  The scripted engine sends none. *)
Theorem engine_call_one_request (c : EngineCall) (e : Engine) (env : Env) :
  let env' := (engine_call c (e, env)).2.2 in
  (env' = env ∨ env' = count_call env)
  ∧ (∀ m, e = MockE m → env' = env).
Proof.
  cbv zeta. destruct e as [m|o|g].
  - destruct (mock_call_returns c m env) as (text & m' & ->). cbn [snd]. auto.
  - split; [|done].
    destruct o as [k h].
    destruct c as [qs context|input|]; unfold engine_call, initialize_interview,
      get_ai_response, end_interview, dispatch, OpenAI.initialize_interview,
      OpenAI.end_interview, OpenAI.get_ai_response; run;
      repeat case_match; simplify_eq/=; auto.
  - split; [|done].
    destruct g as [k ch h p].
    destruct c as [qs context|input|]; unfold engine_call, initialize_interview,
      get_ai_response, end_interview, dispatch, Gemini.initialize_interview,
      Gemini.end_interview, Gemini.get_ai_response, Gemini._send_message; run;
      repeat case_match; simplify_eq/=; auto.
Qed.

(** ** What the summary of a provider-backed engine counts *)

(** On a provider that answers, a provider-backed engine that has been
    initialized records one exchange for each response and for the end. *)
Lemma provider_call_adds_exchange (c : EngineCall) (e : Engine) (env : Env) :
  provider_up env →
  is_initialize c = false →
  (∀ input, c = Respond input → truthy input = true) →
  match e with
  | MockE _ => False
  | OpenAIE _ => True
  | GeminiE g => is_Some (Gemini.chat g)
  end →
  ∃ e' env' r u a,
    engine_call c (e, env) = (r, (e', env'))
    ∧ provider_up env'
    ∧ match e' with
      | MockE _ => False
      | OpenAIE _ => True
      | GeminiE g => is_Some (Gemini.chat g)
      end
    ∧ conversation_history e'
      = (conversation_history e ++ [mkMessage "user" u; mkMessage "assistant" a])%list.
Proof.
  intros Hup Hc Hin He.
  destruct c as [qs context|input|]; [done|..].
  - specialize (Hin input eq_refl). destruct input as [s|]; [|done]. cbn in Hin.
    destruct e as [m|[k h]|[k ch h p]]; [done|..].
    + unfold engine_call, get_ai_response, dispatch, OpenAI.get_ai_response. cbn [fst snd].
      rewrite Hin. run.
      destruct (Hup (calls env) (ChatCompletionsCreate (h ++ [mkMessage "user" s])))
        as [t ->]. simpl.
      eexists _, _, _, s, t. split; [reflexivity|]. repeat split; [done|].
      simpl. by rewrite <-(assoc_L (++)).
    + destruct He as [c Hch]. simpl in Hch. subst ch.
      unfold engine_call, get_ai_response, dispatch, Gemini.get_ai_response,
        Gemini._send_message. cbn [fst snd]. rewrite Hin. run.
      match goal with |- context [outside env (calls env) ?r] =>
        destruct (Hup (calls env) r) as [t ->] end. simpl.
      eexists _, _, _, s, t. split; [reflexivity|]. repeat split; [done|by eexists|].
      simpl. by rewrite <-(assoc_L (++)).
  - destruct e as [m|[k h]|[k ch h p]]; [done|..].
    + unfold engine_call, end_interview, dispatch, OpenAI.end_interview,
        OpenAI.get_ai_response. cbn [fst snd]. run.
      match goal with |- context [outside env (calls env) ?r] =>
        destruct (Hup (calls env) r) as [t ->] end. simpl.
      eexists _, _, _, OpenAI.closing_prompt, t. split; [reflexivity|].
      repeat split; [done|]. simpl. by rewrite <-(assoc_L (++)).
    + destruct He as [c Hch]. simpl in Hch. subst ch.
      unfold engine_call, end_interview, dispatch, Gemini.end_interview,
        Gemini._send_message. cbn [fst snd]. run.
      match goal with |- context [outside env (calls env) ?r] =>
        destruct (Hup (calls env) r) as [t ->] end. simpl.
      eexists _, _, _, Gemini.closing_prompt, t. split; [reflexivity|].
      repeat split; [done|by eexists|]. simpl. by rewrite <-(assoc_L (++)).
Qed.

Lemma engine_calls_cons (c : EngineCall) (cs : list EngineCall) (s : Engine * Env) :
  engine_calls (c :: cs) s = engine_calls cs (engine_call c s).2.
Proof. reflexivity. Qed.

Lemma provider_calls_add_exchanges (cs : list EngineCall) (e : Engine) (env : Env) :
  provider_up env →
  Forall (λ c, is_initialize c = false ∧ ∀ input, c = Respond input → truthy input = true) cs →
  match e with
  | MockE _ => False
  | OpenAIE _ => True
  | GeminiE g => is_Some (Gemini.chat g)
  end →
  ∃ xs, length xs = length cs
        ∧ conversation_history (engine_calls cs (e, env)).1
          = (conversation_history e ++ exchanges xs)%list.
Proof.
  intros Hup Hcs. revert e env Hup.
  induction Hcs as [|c cs [Hc Hin] _ IH]; intros e env Hup He.
  { exists []. by rewrite app_nil_r. }
  destruct (provider_call_adds_exchange c e env Hup Hc Hin He)
    as (e' & env' & r & u & a & Hcall & Hup' & He' & Hh).
  destruct (IH e' env' Hup' He') as (xs & Hlen & Hxs).
  exists ((u, a) :: xs). split; [simpl; by rewrite Hlen|].
  rewrite engine_calls_cons, Hcall. cbn [snd].
  rewrite Hxs, Hh, exchanges_cons, <-(assoc_L (++)). done.
Qed.

Lemma provider_initialize_exchange (qs : list string) (context : option Dict)
    (e : Engine) (env : Env) :
  provider_up env →
  (∀ m, e ≠ MockE m) →
  ∃ e' env' r sys a,
    engine_call (Initialize qs context) (e, env) = (r, (e', env'))
    ∧ provider_up env'
    ∧ match e' with
      | MockE _ => False
      | OpenAIE _ => True
      | GeminiE g => is_Some (Gemini.chat g)
      end
    ∧ Forall (λ msg, role msg = "system") sys
    ∧ conversation_history e'
      = (sys ++ [mkMessage "user" "Start the interview with a warm greeting.";
                 mkMessage "assistant" a])%list.
Proof.
  intros Hup He. destruct e as [m|[k h]|[k ch h p]]; [by destruct (He m)|..].
  - unfold engine_call, initialize_interview, dispatch, OpenAI.initialize_interview,
      OpenAI.get_ai_response. cbn [fst snd]. run.
    match goal with |- context [outside env (calls env) ?r] =>
      destruct (Hup (calls env) r) as [t ->] end. simpl.
    eexists _, _, _, [mkMessage "system" _], t. split; [reflexivity|].
    repeat split; [done|by repeat constructor].
  - unfold engine_call, initialize_interview, dispatch, Gemini.initialize_interview,
      Gemini._send_message. cbn [fst snd]. run.
    match goal with |- context [outside env (calls env) ?r] =>
      destruct (Hup (calls env) r) as [t ->] end. simpl.
    eexists _, _, _, [], t. split; [reflexivity|].
    repeat split; [done|by eexists|constructor].
Qed.

Lemma with_role_system (r : string) (sys : list Message) :
  r ≠ "system" → Forall (λ msg, role msg = "system") sys → with_role r sys = [].
Proof.
  intros Hr. induction 1 as [|msg sys Hmsg _ IH]; [done|].
  rewrite with_role_cons, IH. rewrite decide_False; [done|]. by rewrite Hmsg.
Qed.

(** X16.  The summary of a provider-backed engine counts the directives
    of the view as messages of the student.  On a provider that answers
    every request, an interview as the view drives it (the greeting, the
    request for the first question, one response for each answer, none of
    them empty, and the end) leaves a summary with three messages of the
    student more than there were answers, and as many messages of the
    interviewer: the directives "Start the interview with a warm
    greeting.", "Please ask the first question." and the closing prompt
    are in the history under the role of the student. *)
Theorem provider_summary_counts_directives (qs : list string) (context : option Dict)
    (answers : list string) (e : Engine) (env : Env) :
  provider_up env →
  (∀ m, e ≠ MockE m) →
  Forall (λ s, str_truthy s = true) answers →
  let s := get_conversation_summary
             (engine_calls (interview_calls qs context answers) (e, env)).1 in
  student_messages s = length answers + 3
  ∧ ai_messages s = length answers + 3.
Proof.
  intros Hup He Hans. cbv zeta. unfold interview_calls.
  destruct (provider_initialize_exchange qs context e env Hup He)
    as (e1 & env1 & r & sys & a & Hcall & Hup1 & He1 & Hsys & Hh1).
  rewrite engine_calls_cons, Hcall. cbn [snd].
  destruct (provider_calls_add_exchanges
              (Respond (Some "Please ask the first question.")
               :: ((Respond ∘ Some) <$> answers) ++ [End]) e1 env1 Hup1)
    as (xs & Hlen & Hxs); [|done|].
  { apply Forall_cons_2; [split; [done|by intros input [= <-]]|].
    apply Forall_app. split.
    - apply Forall_fmap. eapply Forall_impl; [exact Hans|].
      intros s Hs. split; [done|]. by intros input [= <-].
    - by apply Forall_singleton. }
  assert (∀ e', get_conversation_summary e' = summary_of (conversation_history e')) as Hsum
    by by intros [].
  rewrite Hsum, Hxs, Hh1. unfold summary_of. cbn [student_messages ai_messages].
  rewrite !with_role_app, !(with_role_system _ sys) by done.
  pose proof (with_role_exchanges_user xs) as Hu.
  pose proof (with_role_exchanges_assistant xs) as Ha.
  unfold said_by in Hu, Ha. apply (f_equal length) in Hu, Ha.
  rewrite !length_fmap in Hu, Ha.
  rewrite !length_app, Hu, Ha, Hlen. cbn [length].
  rewrite !with_role_cons. cbn [role].
  rewrite !length_app, length_fmap. cbn.
  repeat case_decide; simplify_eq; cbn; lia.
Qed.

Lemma provider_summary_counts_directives_witness :
  let e := GeminiE (Gemini.mk "g-key" None [] EmptyString) in
  let env := mkEnv ∅ true true all_up 0 in
  let s := get_conversation_summary
             (engine_calls (interview_calls ["Q1"; "Q2"] None ["A1"; "A2"]) (e, env)).1 in
  (provider_up env ∧ (∀ m, e ≠ MockE m) ∧ Forall (λ s, str_truthy s = true) ["A1"; "A2"])
  ∧ student_messages s = 5
  ∧ ai_messages s = 5.
Proof.
  cbv zeta.
  assert (provider_up (mkEnv ∅ true true all_up 0)) as Hup.
  { intros n r. by exists "Welcome.". }
  assert (∀ m, GeminiE (Gemini.mk "g-key" None [] EmptyString) ≠ MockE m) as He by done.
  assert (Forall (λ s, str_truthy s = true) ["A1"; "A2"]) as Hans by (repeat constructor).
  split; [done|].
  exact (provider_summary_counts_directives ["Q1"; "Q2"] None ["A1"; "A2"]
           (GeminiE (Gemini.mk "g-key" None [] EmptyString))
           (mkEnv ∅ true true all_up 0) Hup He Hans).
Defined.

(** ** The further properties on concrete worlds *)

Lemma other_sessions_untouched_witness :
  let w := two_sessions_world in
  let w' := (_get_ai_response (respond_request "A1") example_session w).2 in
  (registry_ok w
   ∧ "s-2" ≠ session_key example_session
   ∧ active_ai_sessions w !! "s-2" = Some 1)
  ∧ active_ai_sessions w' !! "s-2" = Some 1
  ∧ heap w' !! 1 = heap w !! 1.
Proof.
  cbv zeta.
  assert (registry_ok two_sessions_world) as Hok.
  { apply reachable_registry_ok. unfold two_sessions_world.
    do 2 apply reachable_post. by apply reachable_start. }
  assert ("s-2" ≠ session_key example_session) as Hne by done.
  assert (active_ai_sessions two_sessions_world !! "s-2" = Some 1) as Hreg
    by (vm_compute; reflexivity).
  split; [done|].
  apply (other_sessions_untouched (respond_request "A1") example_session
           two_sessions_world "s-2" 1 Hok Hne Hreg).
  right. by left.
Defined.

Lemma initialize_greeting_failure_witness :
  let w := fresh_world {["OPENAI_API_KEY" := "o-key"]} true completion_down in
  question_rows example_session ≠ []
  ∧ (greeting example_session w).1 = Raise "AI service error: timeout"
  ∧ ∃ e1 w', _initialize_interview (plain_request "initialize") example_session w
             = (Ok (mkResponse (ErrorBody ("Failed to initialize interview: "
                                           +:+ "AI service error: timeout"))
                               HTTP_500_INTERNAL_SERVER_ERROR), w')
           ∧ active_ai_sessions w' = active_ai_sessions w
           ∧ conversations w' = conversations w
           ∧ heap w' = <[new_address w := e1]> (heap w).
Proof.
  cbv zeta. split; [done|]. split; [vm_compute; reflexivity|]. eexists.
  eapply (initialize_greeting_failure (plain_request "initialize") example_session
            (fresh_world {["OPENAI_API_KEY" := "o-key"]} true completion_down)
            "AI service error: timeout").
  - done.
  - vm_compute. reflexivity.
Defined.

Lemma initialize_registers_before_saving_witness :
  let w := fresh_world ∅ true database_down in
  ∃ e1 w', _initialize_interview (plain_request "initialize") example_session w
           = (Ok (mkResponse (ErrorBody ("Failed to initialize interview: "
                                         +:+ "database is locked"))
                             HTTP_500_INTERNAL_SERVER_ERROR), w')
         ∧ active_ai_sessions w' !! session_key example_session = Some (new_address w)
         ∧ heap w' !! new_address w = Some e1
         ∧ conversations w' = conversations w.
Proof.
  cbv zeta. eexists.
  eapply (initialize_registers_before_saving (plain_request "initialize") example_session
            (fresh_world ∅ true database_down) Mock.opening_message "database is locked").
  - done.
  - vm_compute. reflexivity.
  - reflexivity.
Defined.

Lemma respond_adds_two_rows_witness :
  let w := mock_world in
  ∃ e' w', _get_ai_response (respond_request "A1") example_session w
           = (Ok (mkResponse (RespondBody "Q2") HTTP_200_OK), w')
         ∧ conversations w'
           = (conversations w
              ++ [student_row example_session "A1"; ai_row example_session "Q2"])%list
         ∧ active_ai_sessions w' = active_ai_sessions w
         ∧ heap w' !! 0 = Some e'.
Proof.
  cbv zeta. eexists.
  eapply (respond_adds_two_rows (respond_request "A1") example_session mock_world 0
            _ _ "A1" "Q2" "Welcome." "Welcome.").
  - reflexivity.
  - reflexivity.
  - vm_compute. reflexivity.
  - vm_compute. reflexivity.
  - reflexivity.
  - vm_compute. reflexivity.
  - reflexivity.
Defined.

Lemma respond_retry_repeats_student_witness :
  let w := openai_world completion_fails_once in
  let r1 := _get_ai_response (respond_request "A1") example_session w in
  let r2 := _get_ai_response (respond_request "A1") example_session r1.2 in
  r1.1 = Ok (mkResponse (ErrorBody ("Failed to get AI response: "
                                    +:+ "AI service error: " +:+ "timeout"))
                        HTTP_500_INTERNAL_SERVER_ERROR)
  ∧ r2.1 = Ok (mkResponse (RespondBody "Tell me more.") HTTP_200_OK)
  ∧ conversations r2.2
    = (conversations w
       ++ [student_row example_session "A1"; student_row example_session "A1";
           ai_row example_session "Tell me more."])%list
  ∧ (conversation_history <$> heap r2.2 !! 0)
    = Some [mkMessage "system" "Ask Q1."; mkMessage "user" "A1"; mkMessage "user" "A1";
            mkMessage "assistant" "Tell me more."].
Proof.
  cbv zeta.
  eapply (respond_retry_repeats_student (respond_request "A1") example_session
            (openai_world completion_fails_once) 0
            (OpenAI.mk "sk" [mkMessage "system" "Ask Q1."]) "A1" "timeout" "Tell me more.").
  - reflexivity.
  - reflexivity.
  - reflexivity.
  - reflexivity.
  - intros n row. by exists "ok".
  - reflexivity.
  - reflexivity.
Defined.

Lemma scripted_interview_transcript_witness :
  let w := fresh_world ∅ true all_up in
  let w1 := (_initialize_interview (plain_request "initialize") tied_session w).2 in
  let w2 := respond_each ["A1"; "A2"; "A3"] tied_session w1 in
  let r3 := _end_interview (plain_request "initialize") tied_session w2 in
  conversations r3.2
  = [mkConversation "s-1" None "ai" Mock.opening_message;
     mkConversation "s-1" (Some 2) "ai" "Q1";
     student_row tied_session "A1"; ai_row tied_session "Q2";
     student_row tied_session "A2"; ai_row tied_session Mock.concluding_sentence;
     student_row tied_session "A3"; ai_row tied_session Mock.concluding_sentence;
     ai_row tied_session Mock.closing_message]
  ∧ active_ai_sessions r3.2 !! session_key tied_session = None
  ∧ ∃ summary,
      r3.1 = Ok (mkResponse (EndBody Mock.closing_message summary) HTTP_200_OK)
      ∧ student_messages summary = 4
      ∧ ai_messages summary = 4.
Proof.
  cbv zeta.
  assert (database_up (env (fresh_world ∅ true all_up))) as Hdb.
  { intros n row. by exists "Welcome.". }
  assert (gemini_unusable (env (fresh_world ∅ true all_up))) as Hg by by left.
  assert (openai_unusable (try_gemini (env (fresh_world ∅ true all_up))).2) as Ho by by left.
  assert (Forall (λ s, str_truthy s = true) ["A1"; "A2"; "A3"]) as Hans
    by (repeat constructor).
  exact (scripted_interview_transcript (plain_request "initialize") tied_session
           (fresh_world ∅ true all_up) (mkQuestion 1 "Q1" 0 20) [mkQuestion 2 "Q2" 0 10]
           (Some (mkQuestion 2 "Q2" 0 10)) ["A1"; "A2"; "A3"] eq_refl eq_refl Hdb Hg Ho Hans).
Defined.

Lemma client_error_changes_nothing_witness :
  let w := fresh_world ∅ true all_up in
  (post (respond_request "late") w).1 = Ok engine_not_found
  ∧ (status engine_not_found = HTTP_400_BAD_REQUEST
     ∨ status engine_not_found = HTTP_404_NOT_FOUND)
  ∧ (post (respond_request "late") w).2 = w.
Proof.
  cbv zeta. split; [vm_compute; reflexivity|]. split; [by left|].
  apply (client_error_changes_nothing (respond_request "late")
           (fresh_world ∅ true all_up) _ engine_not_found).
  - vm_compute. reflexivity.
  - by left.
Defined.
